(** * The xmltool stream writers of libelektra (src/plugins/xmltool/stream.c)

    A shallow embedding of [keyToStream], [keyToStreamBasename], [ksToStream],
    [keyOutput] and [ksOutput], and the properties of their output.

    Conventions of the embedding:
    - a [char *] is the list of bytes it points to; every C string is followed
      by its terminating NUL, so a read at or past the end of the list yields
      NUL; the one buffer that is no C string, the copy of a binary value in
      [keyOutput], is read by [string_in];
    - the [FILE *] argument is the text written so far, kept in the [World];
      every write succeeds and [fprintf] returns the number of bytes written;
    - [elektraMalloc] succeeds or fails as the oracle of the [World] says;
    - a [KeySet *] is a handle into the table of live key sets of the
      [World], a [const Key *] is the key it points to. *)

From Stdlib Require Import ZArith Ascii String DecimalString.
From stdpp Require Import gmap strings list.

Open Scope Z_scope.

(** ** Bytes and C strings *)

Definition lit (s : string) : list ascii := list_ascii_of_string s.

Definition NUL : ascii := "000"%char.
Definition TAB : ascii := "009"%char.
Definition LF : ascii := "010"%char.
Definition DQUOTE : ascii := "034"%char.

(** A text between double quotes. *)
Definition quoted (s : list ascii) : list ascii := [DQUOTE] ++ s ++ [DQUOTE].

(** The path separator: the doc comment of [keyToStreamBasename] strips
    system:/sw/xorg from system:/sw/xorg/Monitor/Monitor0/Name and is left
    with Monitor/Monitor0/Name. *)
Definition KDB_PATH_SEPARATOR : ascii := "/"%char.

(** [*p]: the byte a pointer points to. *)
Definition deref (p : list ascii) : ascii := hd NUL p.

(** The C string that starts at [p]: the bytes before the first NUL. *)
Fixpoint cstr (p : list ascii) : list ascii :=
  match p with
  | [] => []
  | c :: r => if decide (c = NUL) then [] else c :: cstr r
  end.

Definition strlen (p : list ascii) : nat := length (cstr p).

(** [strchr (p, c)] for a [c] other than NUL: the position of the first [c]
    of the C string, [None] for the null pointer. *)
Fixpoint strchr (p : list ascii) (c : ascii) : option (list ascii) :=
  match p with
  | [] => None
  | x :: r =>
      if decide (x = c) then Some p
      else if decide (x = NUL) then None
      else strchr r c
  end.

(** [memcmp (a, b, n)]: zero when the first [n] bytes agree, the difference
    of the first two bytes that differ otherwise. *)
Fixpoint memcmp (a b : list ascii) (n : nat) : Z :=
  match n with
  | O => 0
  | S n' =>
      if decide (deref a = deref b) then memcmp (tl a) (tl b) n'
      else Z.of_nat (nat_of_ascii (deref a)) - Z.of_nat (nat_of_ascii (deref b))
  end.

(** The first [n] items of a buffer, for a [size_t] count. *)
Fixpoint takeZ {A} (n : Z) (l : list A) : list A :=
  match l with
  | [] => []
  | x :: r => if 0 <? n then x :: takeZ (n - 1) r else []
  end.

(** printf's [%d]. *)
Definition decimal (z : Z) : list ascii :=
  lit (NilZero.string_of_int (Z.to_int z)).

(** The cast of a [size_t] to [int]. *)
Definition to_int (z : Z) : Z := (z + 2 ^ 31) mod 2 ^ 32 - 2 ^ 31.

(** A pointer used as a condition: is it the null pointer? *)
Definition is_null {A} (p : option A) : bool :=
  match p with
  | None => true
  | Some _ => false
  end.

(** [x - y] on [size_t]. *)
Definition size_sub (x y : Z) : Z := (x - y) mod 2 ^ 64.

(** ** Keys *)

(** A key as the writers see it: the two struct fields they read directly
    ([key->key], [key->data] with [key->dataSize] the length of the buffer)
    and what the key API answers for it.

    Modelled from the spec: [keyComment], [keyIsString], [keyIsBinary],
    [keyNeedSync] and [keyGetName] are not in stream.c; the spec gives a key
    an optional comment, the three flags is-string, is-binary and needs-sync,
    and a resolved form of its name. *)
Record Key := mkKey {
  key : list ascii;
  data : option (list ascii);
  keyComment : option (list ascii);
  keyIsString : bool;
  keyIsBinary : bool;
  keyNeedSync : bool;
  keyGetName : list ascii
}.

Definition dataSize (k : Key) : Z :=
  match data k with
  | Some d => Z.of_nat (length d)
  | None => 0
  end.

(** Modelled from the spec: [elektraStrLen] is not in stream.c; with a zero
    [parentSize] the full prefix length is compared, so it counts the
    terminator as well. *)
Definition elektraStrLen (p : list ascii) : nat := S (strlen p).

(** Modelled from the spec: [keyGetNameSize], [keyGetValueSize] and
    [keyGetCommentSize] are not in stream.c; they are the stored sizes of
    the name, the value and the comment, terminator included. A key without
    comment has no stored comment bytes. *)
Definition keyGetNameSize (k : Key) : Z := Z.of_nat (S (strlen (keyGetName k))).
Definition keyGetValueSize (k : Key) : Z := dataSize k.
Definition keyGetCommentSize (k : Key) : Z :=
  match keyComment k with
  | Some c => Z.of_nat (S (strlen c))
  | None => 0
  end.

(** ** The world: output stream, live key sets, allocator *)

Record World := mkWorld {
  stream : list ascii;
  keysets : gmap nat (list Key);
  malloc_oracle : nat -> bool;
  malloc_calls : nat
}.

Definition M (A : Type) : Type := World -> A * World.

Definition ret {A} (a : A) : M A := fun w => (a, w).

Definition bind {A B} (m : M A) (f : A -> M B) : M B :=
  fun w => let (a, w') := m w in f a w'.

Notation "x <- m ;; k" := (bind m (fun x => k))
  (at level 100, m at next level, right associativity).
Notation "m ;;; k" := (bind m (fun _ => k))
  (at level 100, right associativity).

(** [fprintf (stream, ...)] with the formatted text [s]. *)
Definition fprintf (s : list ascii) : M Z :=
  fun w => (Z.of_nat (length s),
            mkWorld (stream w ++ s) (keysets w) (malloc_oracle w) (malloc_calls w)).

(** [fwrite (p, 1, n, stream)]. *)
Definition fwrite (p : list ascii) (n : Z) : M Z :=
  fun w => (n, mkWorld (stream w ++ takeZ n p) (keysets w)
                 (malloc_oracle w) (malloc_calls w)).

(** [written += m]. *)
Definition add (written : Z) (m : M Z) : M Z :=
  n <- m ;; ret (written + n).

(** [if (c) written += m;] *)
Definition add_if (c : bool) (written : Z) (m : M Z) : M Z :=
  if c then add written m else ret written.

(** ** Options *)

(** The option constants come from kdbtools.h, which is not part of the
    sources at hand; they are parameters of the development. *)
Record KDBStream := mkKDBStream {
  KDB_O_SHOWMETA : Z;
  KDB_O_SHOWFLAGS : Z;
  KDB_O_SHOWINDICES : Z;
  KDB_O_CONDENSED : Z;
  KDB_O_NUMBERS : Z;
  KDB_O_HEADER : Z;
  KDB_O_FULLNAME : Z;
  KDB_O_HIER : Z;
  KDB_O_XMLHEADERS : Z;
  KEY_VALUE : Z;
  KEY_META : Z
}.

(** [options & flag] as a condition. *)
Definition isset (options flag : Z) : bool := negb (Z.land options flag =? 0).

Section Stream.

Variable F : KDBStream.

(** The while loop of [keyToStreamBasename]: [key->key + skip] once the path
    separators are skipped. *)
Fixpoint skip_separators (p : list ascii) : list ascii :=
  match p with
  | [] => []
  | c :: r => if decide (c = KDB_PATH_SEPARATOR) then skip_separators r else p
  end.

(** Line 159: the number of bytes of [parent] that are compared. *)
Definition initial_skip (parent : list ascii) (parentSize : nat) : nat :=
  if decide (parentSize = O) then (elektraStrLen parent - 1)%nat else parentSize.

(** Lines 154-170: the basename form of the opening tag. *)
Definition write_basename (k : Key) (parent : option (list ascii))
    (parentSize : nat) (written : Z) : M Z :=
  match parent with
  | Some p =>
      let skip := initial_skip p parentSize in
      let found := memcmp p (key k) skip in
      if found =? 0 then
        let rest := skip_separators (drop skip (key k)) in
        if decide (deref rest = NUL) then ret written
        else add written (fprintf (lit "<key basename=" ++ quoted (cstr rest)))
      else ret written
  | None => ret written
  end.

(** Lines 172-182: the full name form, when no basename was written. *)
Definition write_name (k : Key) (options : Z) (written : Z) : M Z :=
  if written =? 0 then
    if isset options (KDB_O_FULLNAME F) then
      add written (fprintf (lit "<key name=" ++ quoted (cstr (keyGetName k))))
    else
      add written (fprintf (lit "<key name=" ++ quoted (cstr (key k))))
  else ret written.

(** Lines 154-182: the opening tag up to the name. *)
Definition write_opening (k : Key) (parent : option (list ascii))
    (parentSize : nat) (options : Z) : M Z :=
  written <- write_basename k parent parentSize 0 ;;
  write_name k options written.

(** Lines 269-285: the comment and the closing tag. *)
Definition write_tail (k : Key) (options : Z) (written : Z) : M Z :=
  let condensed := isset options (KDB_O_CONDENSED F) in
  written <- (if negb condensed then
                written <- add written (fprintf [LF]) ;;
                add_if (negb (is_null (keyComment k))) written (fprintf (lit "     "))
              else ret written) ;;
  written <- (match keyComment k with
              | Some c =>
                  written <- add written
                    (fprintf (lit "<comment><![CDATA[" ++ cstr c ++ lit "]]></comment>")) ;;
                  add_if (negb condensed) written (fprintf [LF])
              | None => ret written
              end) ;;
  written <- add written (fprintf (lit "</key>")) ;;
  add_if (negb condensed) written (fprintf [LF; LF]).

(** Lines 184-267: the value, as an attribute or as an element. The result
    says whether the function goes on to line 269 ([true]) or has returned. *)
Definition write_value (k : Key) (options : Z) (written : Z) : M (bool * Z) :=
  let condensed := isset options (KDB_O_CONDENSED F) in
  if is_null (data k) && is_null (keyComment k) then
    written <- add written (fprintf (lit "/>")) ;;
    written <- add_if (negb condensed) written (fprintf [LF; LF]) ;;
    ret (false, written)
  else
    match data k with
    | Some d =>
        if (dataSize k <=? 16) && keyIsString k && is_null (strchr d LF)
        then
          written <- (if condensed then add written (fprintf (lit " "))
                      else add written (fprintf [LF; TAB])) ;;
          written <- add written
            (fprintf (lit "value=" ++ quoted (cstr d))) ;;
          if negb (is_null (keyComment k)) then
            written <- add written (fprintf (lit ">" ++ [LF])) ;;
            ret (true, written)
          else
            written <- add written (fprintf (lit "/>")) ;;
            written <- add_if (negb condensed) written (fprintf [LF]) ;;
            ret (false, written)
        else
          written <- add written (fprintf (lit ">")) ;;
          written <- add_if (negb condensed) written
            (fprintf ([LF; LF] ++ lit "     ")) ;;
          written <- add written (fprintf (lit "<value>")) ;;
          written <- (if keyIsString k then
                        written <- add written (fprintf (lit "<![CDATA[")) ;;
                        written <- add written (fwrite d (size_sub (dataSize k) 1)) ;;
                        add written (fprintf (lit "]]>"))
                      else ret written) ;;
          written <- add written (fprintf (lit "</value>")) ;;
          ret (true, written)
    | None =>
        if negb (is_null (keyComment k)) then
          written <- add written (fprintf (lit ">")) ;;
          written <- add_if (negb condensed) written (fprintf [LF]) ;;
          ret (true, written)
        else
          written <- add written (fprintf (lit "/>")) ;;
          written <- add_if (negb condensed) written (fprintf [LF; LF]) ;;
          ret (false, written)
    end.

Definition keyToStreamBasename (k : Key) (parent : option (list ascii))
    (parentSize : nat) (options : Z) : M Z :=
  written <- write_opening k parent parentSize options ;;
  r <- write_value k options written ;;
  if fst r then write_tail k options (snd r) else ret (snd r).

Definition keyToStream (k : Key) (options : Z) : M Z :=
  keyToStreamBasename k None 0 options.

(** ** Key sets *)

(** The keys of a live key set; a handle that is not live has none. *)
Definition ks_keys (ks : nat) (w : World) : list Key :=
  default [] (keysets w !! ks).

(** Modelled from the spec: [ksDup] and [ksDel] are not in stream.c; the
    spec's snapshot is a duplicate of the ordered sequence of keys, taken at
    the start of a call and released at its end. *)
Definition ksDup (ks : nat) : M nat :=
  fun w =>
    let cks := fresh (dom (keysets w)) in
    (cks, mkWorld (stream w) (<[cks := ks_keys ks w]> (keysets w))
            (malloc_oracle w) (malloc_calls w)).

Definition ksDel (ks : nat) : M unit :=
  fun w => (tt, mkWorld (stream w) (delete ks (keysets w))
                  (malloc_oracle w) (malloc_calls w)).

(** Modelled from the spec: [ksGetSize] and [ksAtCursor] are not in
    stream.c; the number of keys of the sequence and its key at a position,
    the null pointer outside of it. *)
Definition ksGetSize (ks : nat) : M Z :=
  fun w => (Z.of_nat (length (ks_keys ks w)), w).

Definition ksAtCursor (ks : nat) (it : nat) : M (option Key) :=
  fun w => (ks_keys ks w !! it, w).

(** [for (elektraCursor it = 0; it < ksGetSize (cks); ++it)] with the loop
    body [body], which gets [ksAtCursor (cks, it)] and the local variables
    the loop updates. *)
Fixpoint cursor_loop {S} (cks : nat) (its : list nat)
    (body : option Key -> S -> M S) (s : S) : M S :=
  match its with
  | [] => ret s
  | it :: its' =>
      k <- ksAtCursor cks it ;;
      s <- body k s ;;
      cursor_loop cks its' body s
  end.

Definition for_cursor {S} (cks : nat) (body : option Key -> S -> M S) (s : S) : M S :=
  size <- ksGetSize cks ;;
  cursor_loop cks (seq 0 (Z.to_nat size)) body s.

(** [written += m] on the [size_t] counter of [ksToStream]. *)
Definition addu (written : Z) (m : M Z) : M Z :=
  n <- m ;; ret ((written + n) mod 2 ^ 64).

(** The conversion of the [size_t] counter to the [ssize_t] result. *)
Definition to_ssize (z : Z) : Z := (z + 2 ^ 63) mod 2 ^ 64 - 2 ^ 63.

(** ksGetCommonParentName is not in stream.c: the text it leaves in the
    buffer [commonParent] for the keys of a key set is a parameter. *)
Variable ksGetCommonParentName : list Key -> list ascii.

Definition xml_prolog : list ascii :=
  lit "<?xml version=" ++ quoted (lit "1.0") ++ lit " encoding="
    ++ quoted (lit "UTF-8") ++ lit "?>".

Definition keyset_schema_lines : list ascii :=
  lit "<keyset xmlns=" ++ quoted (lit "https://www.libelektra.org") ++ [LF]
    ++ [TAB] ++ lit "xmlns:xsi="
    ++ quoted (lit "http://www.w3.org/2001/XMLSchema-instance") ++ [LF]
    ++ [TAB] ++ lit "xsi:schemaLocation="
    ++ quoted (lit "https://www.libelektra.org elektra.xsd") ++ [LF].

Definition keyset_schema_condensed : list ascii :=
  lit "<keyset xmlns=" ++ quoted (lit "https://www.libelektra.org")
    ++ lit " xmlns:xsi="
    ++ quoted (lit "http://www.w3.org/2001/XMLSchema-instance")
    ++ lit " xsi:schemaLocation="
    ++ quoted (lit "https://www.libelektra.org elektra.xsd").

(** Lines 356-373. *)
Definition write_header (cks : nat) (options : Z) (written : Z) : M Z :=
  if isset options (KDB_O_HEADER F) then
    written <- addu written (fprintf xml_prolog) ;;
    written <- (if isset (Z.lnot options) (KDB_O_CONDENSED F) then
                  size <- ksGetSize cks ;;
                  addu written
                    (fprintf ([LF] ++ lit "<!-- Generated by Elektra API. Total of "
                                ++ decimal (to_int size) ++ lit " keys. -->" ++ [LF]))
                else ret written) ;;
    if isset (Z.lnot options) (KDB_O_CONDENSED F) then
      addu written (fprintf keyset_schema_lines)
    else
      addu written (fprintf keyset_schema_condensed)
  else
    addu written (fprintf (lit "<keyset")).

(** Lines 375-411. A null key is not passed on: the cursor stays below the
    size of the key set. *)
Definition write_keys (cks : nat) (options : Z) (written : Z) : M Z :=
  if isset options (KDB_O_HIER F) then
    keys <- (fun w => (ks_keys cks w, w)) ;;
    let commonParent := ksGetCommonParentName keys in
    if negb (bool_decide (deref commonParent = NUL)) then
      written <- addu written
        (fprintf (lit "        parent=" ++ quoted (cstr commonParent) ++ lit ">" ++ [LF])) ;;
      for_cursor cks
        (fun key written =>
           match key with
           | Some k => addu written (keyToStreamBasename k (Some commonParent) 0 options)
           | None => ret written
           end) written
    else
      written <- addu written (fprintf (lit ">" ++ [LF])) ;;
      for_cursor cks
        (fun key written =>
           match key with
           | Some k => addu written (keyToStream k options)
           | None => ret written
           end) written
  else
    written <- addu written (fprintf (lit ">" ++ [LF])) ;;
    for_cursor cks
      (fun key written =>
         match key with
         | Some k => addu written (keyToStream k options)
         | None => ret written
         end) written.

Definition ksToStream (ks : nat) (options : Z) : M Z :=
  cks <- ksDup ks ;;
  written <- write_header cks options 0 ;;
  written <- write_keys cks options written ;;
  written <- addu written (fprintf (lit "</keyset>" ++ [LF])) ;;
  ksDel cks ;;;
  ret (to_ssize written).

(** ** The debug writers *)

(** [elektraMalloc (n)]: is the result a buffer ([true]) or the null
    pointer? *)
Definition elektraMalloc (n : Z) : M bool :=
  fun w => (malloc_oracle w (malloc_calls w),
            mkWorld (stream w) (keysets w) (malloc_oracle w) (S (malloc_calls w))).

Definition elektraFree : M unit := ret tt.

(** Modelled from the spec: [keyGetBinary], [keyGetString] and
    [keyGetComment] are not in stream.c; they copy the stored value and the
    comment into the buffer. *)
Definition value_buffer (k : Key) : list ascii := default [] (data k).
Definition comment_buffer (k : Key) : list ascii := default [] (keyComment k).

(** Lines 437-447; [false] stands for the return of -1. *)
Definition output_name (k : Key) : M bool :=
  let n := keyGetNameSize k in
  if 1 <? n then
    nam <- elektraMalloc n ;;
    if nam then
      fprintf (lit "Name[" ++ decimal (to_int n) ++ lit "]: "
                 ++ cstr (keyGetName k) ++ lit " : ") ;;;
      elektraFree ;;;
      ret true
    else ret false
  else ret true.

(** What lies in memory behind a buffer is not determined by stream.c: the
    bytes that a read which runs over the end of a buffer with the given
    content finds there, up to the first zero byte, are a parameter. *)
Variable overrun : list ascii -> list ascii.

(** printf's [%s] on a buffer that need not hold a zero byte: the bytes
    before the first zero byte of the buffer; without one the read runs
    over the end of the buffer. *)
Definition string_in (buffer : list ascii) : list ascii :=
  if bool_decide (NUL ∈ buffer) then cstr buffer else buffer ++ overrun buffer.

(** Lines 449-473. The buffer [str] has the [s] bytes of the value: a
    string value ends with its terminator, a binary value is copied as it
    is. *)
Definition output_value (k : Key) (options : Z) : M bool :=
  let s := keyGetValueSize k in
  if isset options (KEY_VALUE F) && (1 <? s) then
    str <- elektraMalloc s ;;
    if str then
      (if keyIsBinary k then
         fprintf (lit "Binary[" ++ decimal (to_int s) ++ lit "]: "
                    ++ string_in (value_buffer k) ++ lit " : ")
       else
         fprintf (lit "String[" ++ decimal (to_int s) ++ lit "]: "
                    ++ cstr (value_buffer k) ++ lit " : ")) ;;;
      elektraFree ;;;
      ret true
    else ret false
  else ret true.

(** Lines 475-485. *)
Definition output_comment (k : Key) (options : Z) : M bool :=
  let c := keyGetCommentSize k in
  if isset options (KEY_META F) && (1 <? c) then
    com <- elektraMalloc c ;;
    if com then
      fprintf (lit "Comment[" ++ decimal (to_int c) ++ lit "]: "
                 ++ cstr (comment_buffer k) ++ lit " : ") ;;;
      elektraFree ;;;
      ret true
    else ret false
  else ret true.

Definition when (c : bool) (m : M Z) : M unit :=
  if c then m ;;; ret tt else ret tt.

(** Lines 488-500. *)
Definition output_flags (k : Key) (options : Z) : M Z :=
  when (isset options (KDB_O_SHOWMETA F)) (fprintf (lit " : ")) ;;;
  (if isset options (KDB_O_SHOWFLAGS F) then
     when (negb (isset options (KDB_O_SHOWMETA F))) (fprintf (lit " ")) ;;;
     fprintf (lit "Flags: ") ;;;
     when (keyIsBinary k) (fprintf (lit "b")) ;;;
     when (keyIsString k) (fprintf (lit "s")) ;;;
     when (keyNeedSync k) (fprintf (lit "s"))
   else ret tt) ;;;
  fprintf [LF] ;;;
  ret 1.

Definition keyOutput (k : Key) (options : Z) : M Z :=
  ok <- output_name k ;;
  if negb ok then ret (-1) else
  ok <- output_value k options ;;
  if negb ok then ret (-1) else
  ok <- output_comment k options ;;
  if negb ok then ret (-1) else
  output_flags k options.

Definition ksOutput (ks : nat) (options : Z) : M Z :=
  cks <- ksDup ks ;;
  let size := 0 in
  (if isset (KDB_O_HEADER F) options then
     n <- ksGetSize cks ;;
     fprintf (lit "Output keyset of size " ++ decimal (to_int n) ++ [LF])
   else ret 0) ;;;
  for_cursor cks
    (fun key size =>
       when (isset options (KDB_O_SHOWINDICES F))
         (fprintf (lit "[" ++ decimal (to_int size) ++ lit "] ")) ;;;
       match key with
       | Some k => keyOutput k options
       | None => ret 0
       end ;;;
       ret ((size + 1) mod 2 ^ 64)) size ;;;
  ksDel cks ;;;
  ret 1.

End Stream.

(** ** Sample data *)

(** A choice of option constants with one bit each, except the four-bit mask
    [KDB_O_SHOWMETA]. *)
Definition sample_flags : KDBStream :=
  mkKDBStream 240 (2 ^ 14) (2 ^ 15) (2 ^ 16) (2 ^ 17) (2 ^ 18) (2 ^ 19)
    (2 ^ 20) (2 ^ 21) 2 (2 ^ 22).

Definition string_key (name value : string) (comment : option string) : Key :=
  mkKey (lit name) (Some (lit value ++ [NUL])) (lit <$> comment)
    true false false (lit name).

Definition monitor_key : Key :=
  string_key "system:/sw/xorg/Monitor/Monitor0/Name" "Samsung TFT panel"
    (Some "My monitor").

Definition empty_world : World := mkWorld [] ∅ (fun _ => true) 0.

(** A memory in which a zero byte follows every buffer. *)
Definition zero_behind (buffer : list ascii) : list ascii := [].

(** ** How the writers act on the world *)

Definition with_stream (w : World) (s : list ascii) : World :=
  mkWorld s (keysets w) (malloc_oracle w) (malloc_calls w).

(** [writes m a t]: in every world [m] returns [a], appends [t] to the
    stream and leaves the rest of the world as it is. *)
Definition writes {A} (m : M A) (a : A) (t : list ascii) : Prop :=
  forall w, m w = (a, with_stream w (stream w ++ t)).

(** ** The opening tag of a key *)

(** An opening tag is either a basename, which is never empty, or a name. *)
Definition opening (t : list ascii) : Prop :=
  (exists b, b ≠ [] /\ t = lit "<key basename=" ++ quoted b) \/
  (exists n, t = lit "<key name=" ++ quoted n).

(** [writer m]: [m] only writes to the stream, the same text in every
    world. *)
Definition writer {A} (m : M A) : Prop := exists a t, writes m a t.

(** ** The forms of a key element *)

(** The value of a key of string kind: the bytes [s] and their terminator. *)
Definition string_value (k : Key) (s : list ascii) : Prop :=
  keyIsString k = true /\ data k = Some (s ++ [NUL]) /\ NUL ∉ s.

Definition unless (c : bool) (t : list ascii) : list ascii :=
  if c then [] else t.

Definition comment_element (c : list ascii) : list ascii :=
  lit "<comment><![CDATA[" ++ cstr c ++ lit "]]></comment>".

(** The end of an element that has content: the comment, if there is one,
    and the closing tag. *)
Definition closing (F : KDBStream) (options : Z) (comment : option (list ascii))
    : list ascii :=
  let condensed := isset options (KDB_O_CONDENSED F) in
  unless condensed ([LF] ++ match comment with Some _ => lit "     " | None => [] end)
    ++ match comment with
       | Some c => comment_element c ++ unless condensed [LF]
       | None => []
       end
    ++ lit "</key>" ++ unless condensed [LF; LF].

(** The value [s] as an attribute of the opening tag. *)
Definition value_attribute (F : KDBStream) (options : Z) (s : list ascii)
    (comment : option (list ascii)) : list ascii :=
  let condensed := isset options (KDB_O_CONDENSED F) in
  (if condensed then lit " " else [LF; TAB]) ++ lit "value=" ++ quoted s
    ++ match comment with
       | Some c => lit ">" ++ [LF] ++ closing F options comment
       | None => lit "/>" ++ unless condensed [LF]
       end.

(** The value [s] as a child element. *)
Definition value_element (F : KDBStream) (options : Z) (s : list ascii)
    (comment : option (list ascii)) : list ascii :=
  let condensed := isset options (KDB_O_CONDENSED F) in
  lit ">" ++ unless condensed ([LF; LF] ++ lit "     ")
    ++ lit "<value><![CDATA[" ++ s ++ lit "]]></value>"
    ++ closing F options comment.

Definition sixteen_bytes_key : Key :=
  string_key "user:/a" "0123456789abcdef" None.

Definition fifteen_bytes_key : Key :=
  string_key "user:/a" "255.255.255.255" None.

(** ** The debug line of a key *)

(** The flag codes of a key: b for binary, s for string, s for a key that
    needs synchronisation, in this order. *)
Definition flag_codes (k : Key) : list ascii :=
  (if keyIsBinary k then lit "b" else [])
    ++ (if keyIsString k then lit "s" else [])
    ++ (if keyNeedSync k then lit "s" else []).

(** The world after one call of [elektraMalloc] and the text [t]. *)
Definition bump (w : World) (t : list ascii) : World :=
  mkWorld (stream w ++ t) (keysets w) (malloc_oracle w) (S (malloc_calls w)).

(** A step of [keyOutput] that prints one field: when the field [needs] a
    buffer, the buffer is allocated and the text [t] is printed, or the
    allocation fails and nothing is printed; otherwise nothing happens. *)
Definition field_step (m : M bool) (needs : bool) (t : list ascii) : Prop :=
  forall w,
    m w = if needs then
            if malloc_oracle w (malloc_calls w) then (true, bump w t)
            else (false, bump w [])
          else (true, w).

(** A sequence of field steps, each given by its need of a buffer and its
    text: the steps run in turn until an allocation fails. *)
Fixpoint run_fields (fs : list (bool * list ascii)) (w : World) : bool * World :=
  match fs with
  | [] => (true, w)
  | (needs, t) :: fs' =>
      if needs then
        if malloc_oracle w (malloc_calls w) then run_fields fs' (bump w t)
        else (false, bump w [])
      else run_fields fs' w
  end.

(** The number of field steps that need a buffer. *)
Fixpoint buffers_of (fs : list (bool * list ascii)) : nat :=
  match fs with
  | [] => 0
  | (needs, _) :: fs' => (if needs then 1 else 0) + buffers_of fs'
  end.

(** A world in which the second call of [elektraMalloc] fails. *)
Definition sample_failing_world : World :=
  mkWorld [] ∅ (fun n => negb (Nat.eqb n 1)) 0.

(** The same world with an allocator that never fails. *)
Definition all_succeed (w : World) : World :=
  mkWorld (stream w) (keysets w) (fun _ => true) (malloc_calls w).

Definition binary_key : Key :=
  mkKey (lit "user:/blob") (Some (lit "xyz" ++ [NUL])) None false true true
    (lit "user:/blob").

Definition synced_string_key : Key :=
  mkKey (lit "user:/a") (Some (lit "v" ++ [NUL])) None true false true
    (lit "user:/a").

(** ** Key sets and the world *)

(** [keeps_keysets m]: [m] leaves the table of live key sets as it is. *)
Definition keeps_keysets {A} (m : M A) : Prop :=
  forall w, keysets (snd (m w)) = keysets w.

(** A world with one key set, of handle 7, in which the fourth call of
    [elektraMalloc] fails. *)
Definition sample_world : World :=
  mkWorld [] {[ 7%nat := [monitor_key; sixteen_bytes_key; fifteen_bytes_key] ]}
    (fun n => negb (Nat.eqb n 3)) 0.

(** [writes_on cks l m a t]: in every world in which the key set [cks] has
    the keys [l], [m] returns [a] and appends [t] to the stream. *)
Definition writes_on {A} (cks : nat) (l : list Key) (m : M A) (a : A)
    (t : list ascii) : Prop :=
  forall w, ks_keys cks w = l -> m w = (a, with_stream w (stream w ++ t)).

(** The text a writer writes. *)
Definition text_of {A} (m : M A) : list ascii := stream (snd (m empty_world)).

(** The element of a key, as [keyToStreamBasename] writes it for a parent
    with [parentSize] zero. *)
Definition key_text (F : KDBStream) (options : Z) (parent : option (list ascii))
    (k : Key) : list ascii :=
  text_of (keyToStreamBasename F k parent 0 options).

(** The text of [ksToStream] up to the name of the root element, for a key
    set of [size] keys. *)
Definition header_text (F : KDBStream) (options : Z) (size : Z) : list ascii :=
  if isset options (KDB_O_HEADER F) then
    xml_prolog
      ++ (if isset (Z.lnot options) (KDB_O_CONDENSED F) then
            [LF] ++ lit "<!-- Generated by Elektra API. Total of "
              ++ decimal (to_int size) ++ lit " keys. -->" ++ [LF]
          else [])
      ++ (if isset (Z.lnot options) (KDB_O_CONDENSED F) then keyset_schema_lines
          else keyset_schema_condensed)
  else lit "<keyset".

(** The end of the opening tag of the root element and the key elements. *)
Definition keys_text (F : KDBStream) (commonParent : list ascii) (options : Z)
    (keys : list Key) : list ascii :=
  if isset options (KDB_O_HIER F) && negb (bool_decide (deref commonParent = NUL))
  then
    lit "        parent=" ++ quoted (cstr commonParent) ++ lit ">" ++ [LF]
      ++ concat (key_text F options (Some commonParent) <$> keys)
  else
    lit ">" ++ [LF] ++ concat (key_text F options None <$> keys).

(** The document of a key set. *)
Definition ks_text (F : KDBStream) (ksGetCommonParentName : list Key -> list ascii)
    (options : Z) (keys : list Key) : list ascii :=
  header_text F options (Z.of_nat (length keys))
    ++ keys_text F (ksGetCommonParentName keys) options keys
    ++ lit "</keyset>" ++ [LF].

(** A world whose only key set, of handle 7, is empty. *)
Definition empty_keyset_world : World :=
  mkWorld [] {[ 7%nat := [] ]} (fun _ => true) 0.

(** A stand-in for ksGetCommonParentName: no common parent. *)
Definition no_common_parent (keys : list Key) : list ascii := [].

(** Another one: the parent user:/ for a key set that is not empty. *)
Definition user_parent (keys : list Key) : list ascii :=
  match keys with
  | [] => []
  | _ => lit "user:/"
  end.

(** ** Condensed output *)

(** The test of line 195: the value is written as an attribute. *)
Definition value_fits_attribute (k : Key) : bool :=
  match data k with
  | Some d => (dataSize k <=? 16) && keyIsString k && is_null (strchr d LF)
  | None => false
  end.

(** The keys for which line 211 is not reached: no short value together
    with a comment. *)
Definition no_attribute_with_comment (k : Key) : Prop :=
  value_fits_attribute k = true -> keyComment k = None.

(** The element of a key without any layout, after its opening tag: the
    value, the comment and the closing tag follow each other directly; the
    one space is the one that separates the attribute value from the name.
    For a key that has not both a value written as an attribute and a
    comment. *)
Definition condensed_body (k : Key) : list ascii :=
  match data k with
  | Some d =>
      if value_fits_attribute k then
        lit " value=" ++ quoted (cstr d) ++ lit "/>"
      else
        lit "><value>"
          ++ (if keyIsString k then
                lit "<![CDATA[" ++ takeZ (size_sub (dataSize k) 1) d ++ lit "]]>"
              else [])
          ++ lit "</value>"
          ++ match keyComment k with
             | Some c => comment_element c
             | None => []
             end
          ++ lit "</key>"
  | None =>
      match keyComment k with
      | Some c => lit ">" ++ comment_element c ++ lit "</key>"
      | None => lit "/>"
      end
  end.

(** The start of the document without any layout but the eight spaces
    before the parent attribute: the prolog and the root element up to the
    end of its attributes. *)
Definition condensed_head (F : KDBStream) (options : Z) (commonParent : list ascii)
    : list ascii :=
  (if isset options (KDB_O_HEADER F) then xml_prolog ++ keyset_schema_condensed
   else lit "<keyset")
    ++ (if isset options (KDB_O_HIER F) && negb (bool_decide (deref commonParent = NUL))
        then lit "        parent=" ++ quoted (cstr commonParent)
        else []).

(** ** Well-formed documents *)

(** The documents that count as well-formed here are a part of XML 1.0: the
    declaration that [ksToStream] writes, comments, elements with
    double-quoted attributes of distinct names, character data without
    markup characters and CDATA sections, in the encoding UTF-8. Names are
    in ASCII. References, processing instructions and document type
    declarations are refused.

    The scan reads bytes: all markup is ASCII, and no byte of a character
    of more than one byte is below 128. That the bytes are the encoding of
    characters of XML 1.0 is checked on its own, by [utf8]. *)

Definition code (c : ascii) : nat := nat_of_ascii c.

Definition is_char (c x : ascii) : bool := bool_decide (c = x).

(** A byte of a character of XML 1.0: tab, newline, carriage return and
    everything from the space on. *)
Definition xml_char (c : ascii) : bool :=
  (code c =? 9)%nat || (code c =? 10)%nat || (code c =? 13)%nat
  || (32 <=? code c)%nat.

Definition xml_space (c : ascii) : bool :=
  (code c =? 9)%nat || (code c =? 10)%nat || (code c =? 13)%nat || (code c =? 32)%nat.

Definition name_start (c : ascii) : bool :=
  ((65 <=? code c)%nat && (code c <=? 90)%nat)
  || ((97 <=? code c)%nat && (code c <=? 122)%nat)
  || is_char c "_" || is_char c ":".

Definition name_char (c : ascii) : bool :=
  name_start c || ((48 <=? code c)%nat && (code c <=? 57)%nat)
  || is_char c "-" || is_char c ".".

(** A character of an attribute value. *)
Definition attr_char (c : ascii) : bool :=
  xml_char c && negb (is_char c DQUOTE) && negb (is_char c "<") && negb (is_char c "&").

Inductive xml_mode :=
  | Text
  | Markup
  | Bang
  | Expect (rest : list ascii) (next : xml_mode)
  | StartName (name : list ascii)
  | Attrs (space : bool)
  | AttrName (name : list ascii)
  | AttrQuote
  | AttrValue
  | EmptyEnd
  | EndName (name : list ascii)
  | EndSpace
  | Comment (dashes : nat)
  | CData (brackets : nat).

(** The state of the scan: where it is, the elements that are open
    (innermost first), the name of the tag being read, the attribute names
    read in it, and whether the root element has been met. *)
Record xml_state := mkXml {
  mode : xml_mode;
  open_elements : list (list ascii);
  tag : list ascii;
  attributes : list (list ascii);
  root_seen : bool
}.

Definition at_mode (st : xml_state) (m : xml_mode) : xml_state :=
  mkXml m (open_elements st) (tag st) (attributes st) (root_seen st).

(** The end of a start tag: the element is open. *)
Definition open_element (st : xml_state) (name : list ascii) : xml_state :=
  mkXml Text (name :: open_elements st) [] [] true.

(** The end of an end tag: it has to close the innermost open element. *)
Definition close_element (st : xml_state) (name : list ascii) : option xml_state :=
  match open_elements st with
  | top :: rest =>
      if decide (top = name) then Some (mkXml Text rest [] [] (root_seen st)) else None
  | [] => None
  end.

Definition is_nil {A} (l : list A) : bool :=
  match l with
  | [] => true
  | _ => false
  end.

Definition xml_step (st : xml_state) (c : ascii) : option xml_state :=
  if negb (xml_char c) then None else
  match mode st with
  | Text =>
      if is_char c "<" then Some (at_mode st Markup)
      else if is_char c "&" || is_char c ">" then None
      else if is_nil (open_elements st) && negb (xml_space c) then None
      else Some st
  | Markup =>
      if is_char c "/" then
        if is_nil (open_elements st) then None else Some (at_mode st (EndName []))
      else if is_char c "!" then Some (at_mode st Bang)
      else if name_start c then
        if is_nil (open_elements st) && root_seen st then None
        else Some (at_mode st (StartName [c]))
      else None
  | Bang =>
      if is_char c "-" then Some (at_mode st (Expect (lit "-") (Comment 0)))
      else if is_char c "[" then
        if is_nil (open_elements st) then None
        else Some (at_mode st (Expect (lit "CDATA[") (CData 0)))
      else None
  | Expect rest next =>
      match rest with
      | x :: rest' =>
          if is_char c x then
            Some (at_mode st (if is_nil rest' then next else Expect rest' next))
          else None
      | [] => None
      end
  | StartName name =>
      if name_char c then Some (at_mode st (StartName (c :: name)))
      else if xml_space c then
        Some (mkXml (Attrs true) (open_elements st) (rev name) [] (root_seen st))
      else if is_char c "/" then
        Some (mkXml EmptyEnd (open_elements st) (rev name) [] (root_seen st))
      else if is_char c ">" then Some (open_element st (rev name))
      else None
  | Attrs space =>
      if xml_space c then Some (at_mode st (Attrs true))
      else if is_char c "/" then Some (at_mode st EmptyEnd)
      else if is_char c ">" then Some (open_element st (tag st))
      else if name_start c && space then Some (at_mode st (AttrName [c]))
      else None
  | AttrName name =>
      if name_char c then Some (at_mode st (AttrName (c :: name)))
      else if is_char c "=" then
        if bool_decide (rev name ∈ attributes st) then None
        else Some (mkXml AttrQuote (open_elements st) (tag st)
                     (rev name :: attributes st) (root_seen st))
      else None
  | AttrQuote =>
      if is_char c DQUOTE then Some (at_mode st AttrValue) else None
  | AttrValue =>
      if is_char c DQUOTE then Some (at_mode st (Attrs false))
      else if is_char c "<" || is_char c "&" then None
      else Some st
  | EmptyEnd =>
      if is_char c ">" then Some (mkXml Text (open_elements st) [] [] true) else None
  | EndName name =>
      if name_char c then Some (at_mode st (EndName (c :: name)))
      else if xml_space c then
        Some (mkXml EndSpace (open_elements st) (rev name) [] (root_seen st))
      else if is_char c ">" then close_element st (rev name)
      else None
  | EndSpace =>
      if xml_space c then Some st
      else if is_char c ">" then close_element st (tag st)
      else None
  | Comment dashes =>
      if is_char c "-" then
        match dashes with
        | 0%nat => Some (at_mode st (Comment 1))
        | 1%nat => Some (at_mode st (Comment 2))
        | _ => None
        end
      else if is_char c ">" then
        match dashes with
        | 2%nat => Some (at_mode st Text)
        | _ => Some (at_mode st (Comment 0))
        end
      else
        match dashes with
        | 2%nat => None
        | _ => Some (at_mode st (Comment 0))
        end
  | CData brackets =>
      if is_char c "]" then
        Some (at_mode st (CData (match brackets with 0%nat => 1 | _ => 2 end)))
      else if is_char c ">" then
        match brackets with
        | 2%nat => Some (at_mode st Text)
        | _ => Some (at_mode st (CData 0))
        end
      else Some (at_mode st (CData 0))
  end.

Fixpoint xml_run (st : xml_state) (t : list ascii) : option xml_state :=
  match t with
  | [] => Some st
  | c :: t' =>
      match xml_step st c with
      | Some st' => xml_run st' t'
      | None => None
      end
  end.

Definition xml_start : xml_state := mkXml Text [] [] [] false.

(** The scan ends well outside of all markup, with the root element met and
    closed. *)
Definition xml_final (st : option xml_state) : bool :=
  match st with
  | Some (mkXml Text [] _ _ true) => true
  | _ => false
  end.

(** [strip_prefix p t]: [t] without its prefix [p], if it starts with it. *)
Fixpoint strip_prefix (p t : list ascii) : option (list ascii) :=
  match p, t with
  | [], _ => Some t
  | x :: p', y :: t' => if decide (x = y) then strip_prefix p' t' else None
  | _ :: _, [] => None
  end.

(** ** The encoding *)

Definition between (lo hi n : nat) : bool := (lo <=? n)%nat && (n <=? hi)%nat.

Definition continuation (c : ascii) : bool := between 128 191 (code c).

(** The second byte of a character of more than one byte whose first byte
    is [a]: the ranges keep out the overlong forms, the surrogates and the
    code points above U+10FFFF. *)
Definition second_byte (a c : ascii) : bool :=
  if (code a =? 224)%nat then between 160 191 (code c)
  else if (code a =? 237)%nat then between 128 159 (code c)
  else if (code a =? 240)%nat then between 144 191 (code c)
  else if (code a =? 244)%nat then between 128 143 (code c)
  else continuation c.

(** One byte after the bytes [pending] of a character that is not complete
    yet. A byte below 128 is a character; the first byte of a longer one is
    from 194 to 244; the code points U+FFFE and U+FFFF, which are no
    characters of XML, are refused. *)
Definition utf8_step (pending : list ascii) (c : ascii) : option (list ascii) :=
  match pending with
  | [] =>
      if (code c <? 128)%nat then Some []
      else if between 194 244 (code c) then Some [c]
      else None
  | [a] =>
      if second_byte a c then
        if (code a <? 224)%nat then Some [] else Some [a; c]
      else None
  | [a; b] =>
      if continuation c
         && negb ((code a =? 239)%nat && (code b =? 191)%nat && (190 <=? code c)%nat)
      then
        if (code a <? 240)%nat then Some [] else Some [a; b; c]
      else None
  | [_; _; _] => if continuation c then Some [] else None
  | _ => None
  end.

Fixpoint utf8_run (pending : list ascii) (t : list ascii) : option (list ascii) :=
  match t with
  | [] => Some pending
  | c :: t' =>
      match utf8_step pending c with
      | Some pending' => utf8_run pending' t'
      | None => None
      end
  end.

(** The text is a sequence of encoded characters. *)
Definition utf8 (t : list ascii) : bool :=
  match utf8_run [] t with
  | Some [] => true
  | _ => false
  end.

Definition well_formed (t : list ascii) : bool :=
  utf8 t && xml_final (xml_run xml_start (default t (strip_prefix xml_prolog t))).

(** The text holds the end of a CDATA section. *)
Fixpoint has_cdata_end (t : list ascii) : bool :=
  match t with
  | [] => false
  | c :: t' =>
      match strip_prefix (lit "]]>") t with
      | Some _ => true
      | None => has_cdata_end t'
      end
  end.

(** The bytes that can stand in an attribute value and in a CDATA
    section. *)
Definition attr_text (t : list ascii) : Prop := forallb attr_char t = true.

Definition cdata_text (t : list ascii) : Prop :=
  forallb xml_char t = true /\ has_cdata_end t = false.

(** The texts that can stand there: encoded characters, without double
    quote, [<] and [&] in an attribute value, without the end mark in a
    CDATA section. *)
Definition attribute_value (t : list ascii) : Prop :=
  attr_text t /\ utf8 t = true.

Definition cdata_content (t : list ascii) : Prop :=
  cdata_text t /\ utf8 t = true.

(** A key whose texts can stand where [keyToStreamBasename] writes them
    without any escaping: its two names in an attribute value, its value in
    an attribute value if it is written as an attribute and in a CDATA
    section if it is written as the element of a string, its comment in a
    CDATA section. *)
Definition clean_key (k : Key) : Prop :=
  attribute_value (key k) /\ attribute_value (cstr (keyGetName k)) /\
  (forall d, data k = Some d ->
     if value_fits_attribute k then attribute_value (cstr d)
     else keyIsString k = true ->
          cdata_content (takeZ (size_sub (dataSize k) 1) d)) /\
  (forall c, keyComment k = Some c -> cdata_content (cstr c)).

(** [valid_writer m]: [m] writes a text of encoded characters. *)
Definition valid_writer {A} (m : M A) : Prop :=
  exists a t, writes m a t /\ utf8 t = true.

(** A key with a name and a comment that are not in ASCII, and with the end
    mark of a CDATA section as its value, written as an attribute. *)
Definition umlaut_key : Key :=
  mkKey (lit "user:/gr" ++ ["195"%char; "188"%char] ++ lit "n")
    (Some (lit "]]>" ++ [NUL]))
    (Some (["226"%char; "130"%char; "172"%char] ++ lit " 5"))
    true false false
    (lit "user:/gr" ++ ["195"%char; "188"%char] ++ lit "n").

Definition umlaut_world : World :=
  mkWorld [] {[ 7%nat := [monitor_key; umlaut_key; fifteen_bytes_key] ]}
    (fun _ => true) 0.

(** A key with a double quote in its name. *)
Definition quote_key : Key :=
  mkKey (lit "user:/a" ++ [DQUOTE] ++ lit "b") None None true false false
    (lit "user:/a" ++ [DQUOTE] ++ lit "b").

Definition quote_world : World :=
  mkWorld [] {[ 7%nat := [quote_key] ]} (fun _ => true) 0.

(** [scans st t st']: the scan of [t] from the state [st] ends in [st']. *)
Definition scans (st : xml_state) (t : list ascii) (st' : xml_state) : Prop :=
  xml_run st t = Some st'.

(** [scan_writes st m a st']: [m] returns [a] and writes a text whose scan
    from [st] ends in [st']. *)
Definition scan_writes {A} (st : xml_state) (m : M A) (a : A) (st' : xml_state)
    : Prop :=
  exists t, writes m a t /\ scans st t st'.

(** The number of closing brackets, up to two, that end a text read in a
    CDATA section after [b] of them. *)
Fixpoint cdata_brackets (b : nat) (t : list ascii) : nat :=
  match t with
  | [] => b
  | c :: t' =>
      cdata_brackets
        (if is_char c "]" then match b with 0%nat => 1%nat | _ => 2%nat end
         else 0%nat) t'
  end.

Definition digit (c : ascii) : bool := (48 <=? code c)%nat && (code c <=? 57)%nat.

(** The state of the scan between the children of the root element. *)
Definition in_keyset : xml_state := mkXml Text [lit "keyset"] [] [] true.

(** The state of the scan in the start tag of a key, after its first
    attribute. *)
Definition in_key_tag (attribute : list ascii) : xml_state :=
  mkXml (Attrs false) [lit "keyset"] (lit "key") [attribute] true.

(** ** Further sample keys *)

Definition bare_key : Key :=
  mkKey (lit "user:/bare") None None true false false (lit "user:/bare").

Definition comment_only_key : Key :=
  mkKey (lit "user:/note") None (Some (lit "just a note")) true false false
    (lit "user:/note").

(** ** The byte count *)

(** [tally w m]: [m] writes a text and returns [w] plus its length. *)
Definition tally (w : Z) (m : M Z) : Prop :=
  exists t, writes m (w + Z.of_nat (length t)) t.

(** The same for [write_value], which returns the count beside a flag. *)
Definition tally_flag (w : Z) (m : M (bool * Z)) : Prop :=
  exists b t, writes m (b, w + Z.of_nat (length t)) t.

(** The stored value of the key is not empty and its size fits [size_t]. *)
Definition sized_value (k : Key) : Prop :=
  forall d, data k = Some d -> 0 < Z.of_nat (length d) < 2 ^ 64.

(** [tally_on cks l w m]: where the key set [cks] has the keys [l], [m]
    writes a text and returns [w] plus its length, as a [size_t]. *)
Definition tally_on (cks : nat) (l : list Key) (w : Z) (m : M Z) : Prop :=
  exists t, writes_on cks l m ((w + Z.of_nat (length t)) mod 2 ^ 64) t.

(** ** The debug line in full *)

Definition name_needed (k : Key) : bool := 1 <? keyGetNameSize k.

Definition value_needed (F : KDBStream) (k : Key) (options : Z) : bool :=
  isset options (KEY_VALUE F) && (1 <? keyGetValueSize k).

Definition comment_needed (F : KDBStream) (k : Key) (options : Z) : bool :=
  isset options (KEY_META F) && (1 <? keyGetCommentSize k).

Definition name_field (k : Key) : list ascii :=
  if name_needed k then
    lit "Name[" ++ decimal (to_int (keyGetNameSize k)) ++ lit "]: "
      ++ cstr (keyGetName k) ++ lit " : "
  else [].

Definition value_field (F : KDBStream) (k : Key) (options : Z) : list ascii :=
  if value_needed F k options then
    (if keyIsBinary k then lit "Binary[" else lit "String[")
      ++ decimal (to_int (keyGetValueSize k)) ++ lit "]: "
      ++ cstr (value_buffer k) ++ lit " : "
  else [].

Definition comment_field (F : KDBStream) (k : Key) (options : Z) : list ascii :=
  if comment_needed F k options then
    lit "Comment[" ++ decimal (to_int (keyGetCommentSize k)) ++ lit "]: "
      ++ cstr (comment_buffer k) ++ lit " : "
  else [].

Definition flags_field (F : KDBStream) (k : Key) (options : Z) : list ascii :=
  (if isset options (KDB_O_SHOWMETA F) then lit " : " else [])
    ++ (if isset options (KDB_O_SHOWFLAGS F) then
          (if isset options (KDB_O_SHOWMETA F) then [] else lit " ")
            ++ lit "Flags: " ++ flag_codes k
        else []).

(** The value that is printed is read within its buffer: a binary value
    that is printed holds a zero byte. *)
Definition value_terminated (F : KDBStream) (k : Key) (options : Z) : Prop :=
  value_needed F k options = true -> keyIsBinary k = true -> NUL ∈ value_buffer k.

(** The line of a key when no allocation fails and the value is read
    within its buffer. *)
Definition debug_line (F : KDBStream) (k : Key) (options : Z) : list ascii :=
  name_field k ++ value_field F k options ++ comment_field F k options
    ++ flags_field F k options ++ [LF].

(** The number of buffers the line of a key needs. *)
Definition buffers_needed (F : KDBStream) (k : Key) (options : Z) : nat :=
  ((if name_needed k then 1 else 0)
   + (if value_needed F k options then 1 else 0)
   + (if comment_needed F k options then 1 else 0))%nat.

(** From the call [c] on, no allocation fails. *)
Definition succeeds_from (w : World) (c : nat) : Prop :=
  forall i, (c <= i)%nat -> malloc_oracle w i = true.

(** The world after [calls] more allocations and the text [t]. *)
Definition advance (w : World) (t : list ascii) (calls : nat) : World :=
  mkWorld (stream w ++ t) (keysets w) (malloc_oracle w) (malloc_calls w + calls).

(** A binary key whose value has a zero byte in it. *)
Definition zero_byte_key : Key :=
  mkKey (lit "user:/blob") (Some (lit "ab" ++ [NUL] ++ lit "cd")) None
    false true false (lit "user:/blob").

(** The lines of the keys from the counter value [size] on, when no
    allocation fails and the values are read within their buffers: each
    line after its index, if indices are shown. *)
Fixpoint debug_lines (F : KDBStream) (options : Z) (size : Z) (keys : list Key)
    : list ascii :=
  match keys with
  | [] => []
  | k :: keys' =>
      (if isset options (KDB_O_SHOWINDICES F) then
         lit "[" ++ decimal (to_int size) ++ lit "] "
       else [])
        ++ debug_line F k options
        ++ debug_lines F options ((size + 1) mod 2 ^ 64) keys'
  end.

(** The loop body of [ksOutput]. *)
Definition output_body (F : KDBStream) (overrun : list ascii -> list ascii)
    (options : Z) (key : option Key) (size : Z) : M Z :=
  when (isset options (KDB_O_SHOWINDICES F))
    (fprintf (lit "[" ++ decimal (to_int size) ++ lit "] ")) ;;;
  match key with
  | Some k => keyOutput F overrun k options
  | None => ret 0
  end ;;;
  ret ((size + 1) mod 2 ^ 64).

(** * Properties *)

(** ** Writers *)

Lemma writes_ret {A} (a : A) : writes (ret a) a [].
Proof. intros [s h o c]. unfold ret, with_stream. simpl. by rewrite app_nil_r. Qed.

Lemma writes_bind {A B} (m : M A) (f : A -> M B) a b t u :
  writes m a t -> writes (f a) b u -> writes (bind m f) b (t ++ u).
Proof.
  intros Hm Hf w. unfold bind. rewrite Hm, Hf.
  unfold with_stream. simpl. by rewrite app_assoc.
Qed.

Lemma writes_fprintf s : writes (fprintf s) (Z.of_nat (length s)) s.
Proof. by intros w. Qed.

Lemma writes_fwrite p n : writes (fwrite p n) n (takeZ n p).
Proof. by intros w. Qed.

Lemma writes_add written m n t :
  writes m n t -> writes (add written m) (written + n) t.
Proof.
  intros Hm. unfold add. rewrite <- (app_nil_r t).
  eapply writes_bind; [exact Hm | apply writes_ret].
Qed.

Lemma writes_add_if c written m n t :
  writes m n t ->
  writes (add_if c written m) (if c then written + n else written) (if c then t else []).
Proof. destruct c; simpl; [apply writes_add | intros _; apply writes_ret]. Qed.

Lemma writes_eq {A} (m : M A) a t a' t' :
  writes m a t -> a = a' -> t = t' -> writes m a' t'.
Proof. by intros H <- <-. Qed.

Lemma writes_inj {A} (m : M A) a t a' t' :
  writes m a t -> writes m a' t' -> a = a' /\ t = t'.
Proof.
  intros H H'. specialize (H empty_world). specialize (H' empty_world).
  rewrite H in H'. by inversion H'.
Qed.

Lemma writes_when c m n t :
  writes m n t -> writes (when c m) tt (if c then t else []).
Proof.
  intros Hm. unfold when. destruct c; [|apply writes_ret].
  rewrite <- (app_nil_r t). eapply writes_bind; [exact Hm | apply writes_ret].
Qed.

Ltac writes_steps :=
  repeat match goal with
    | |- writes (ret _) _ _ => apply writes_ret
    | |- writes (when _ _) _ _ => eapply writes_when
    | |- writes (fprintf _) _ _ => apply writes_fprintf
    | |- writes (fwrite _ _) _ _ => apply writes_fwrite
    | |- writes (add _ _) _ _ => apply writes_add
    | |- writes (bind _ _) _ _ => eapply writes_bind
    | |- writes ((fun _ => _) _) _ _ => cbv beta
    end.

(** Equality of two texts up to the association of their parts. *)
Ltac text_eq :=
  repeat first
    [ rewrite <- app_assoc | rewrite app_nil_r | progress cbn [app] ];
  reflexivity.

(** Derive what a straight-line writer writes, then compare the texts. *)
Ltac writes_run :=
  eapply writes_eq; [ writes_steps | reflexivity | ].

(** ** C strings *)

Lemma cstr_terminated s r : NUL ∉ s -> cstr (s ++ NUL :: r) = s.
Proof.
  induction s as [|c s IH]; simpl; intros Hs.
  - by destruct (decide (NUL = NUL)).
  - apply not_elem_of_cons in Hs as [Hc Hs].
    destruct (decide (c = NUL)); [congruence|]. by rewrite IH.
Qed.

Lemma cstr_no_NUL s : NUL ∉ s -> cstr s = s.
Proof.
  induction s as [|c s IH]; simpl; intros Hs; [done|].
  apply not_elem_of_cons in Hs as [Hc Hs].
  destruct (decide (c = NUL)); [congruence|]. by rewrite IH.
Qed.

Lemma strchr_absent s r c :
  c ∉ s -> c ≠ NUL -> strchr (s ++ NUL :: r) c = None.
Proof.
  induction s as [|x s IH]; simpl; intros Hs Hc.
  - destruct (decide (NUL = c)); [congruence|].
    by destruct (decide (NUL = NUL)).
  - apply not_elem_of_cons in Hs as [Hx Hs].
    destruct (decide (x = c)); [congruence|].
    destruct (decide (x = NUL)); [done|]. by apply IH.
Qed.

Lemma strchr_present s r c :
  c ∈ s -> NUL ∉ s -> is_null (strchr (s ++ r) c) = false.
Proof.
  induction s as [|x s IH]; simpl; intros Hc Hs.
  - by apply elem_of_nil in Hc.
  - apply not_elem_of_cons in Hs as [Hx Hs].
    destruct (decide (x = c)); [done|].
    destruct (decide (x = NUL)); [congruence|].
    apply IH; [|done]. apply elem_of_cons in Hc as [->|Hc]; [congruence|done].
Qed.

Lemma takeZ_app {A} (s r : list A) : takeZ (Z.of_nat (length s)) (s ++ r) = s.
Proof.
  induction s as [|x s IH]; simpl length.
  - by destruct r.
  - simpl app. cbn [takeZ].
    replace (0 <? Z.of_nat (S (length s))) with true by (symmetry; apply Z.ltb_lt; lia).
    replace (Z.of_nat (S (length s)) - 1) with (Z.of_nat (length s)) by lia.
    by rewrite IH.
Qed.

Lemma cstr_nonempty p : deref p ≠ NUL -> cstr p ≠ [].
Proof.
  destruct p as [|c p]; simpl; [done|]. intros H.
  by destruct (decide (c = NUL)).
Qed.

Lemma writes_opening F k parent parentSize options :
  exists n t, opening t /\ writes (write_opening F k parent parentSize options) n t.
Proof.
  assert (Hname : exists n t, opening t /\ writes (write_name F k options 0) n t).
  { unfold write_name. simpl.
    destruct (isset options (KDB_O_FULLNAME F));
      eexists _, _; (split; [right; eexists; reflexivity |]); writes_run; reflexivity. }
  assert (Hskip : exists n t, opening t /\
            writes (written <- ret 0 ;; write_name F k options written) n t).
  { destruct Hname as (n & t & Ho & Hw). exists n, t. split; [done|].
    change t with ([] ++ t). eapply writes_bind; [apply writes_ret | done]. }
  unfold write_opening, write_basename.
  destruct parent as [p|]; [|done].
  destruct (memcmp _ _ _ =? 0); [|done].
  destruct (decide (deref _ = NUL)) as [|Hne]; [done|].
  eexists _, _. split.
  - left. eexists. split; [by apply cstr_nonempty | reflexivity].
  - writes_run; [apply writes_ret | by rewrite ?app_nil_r].
Qed.

Lemma writer_ret {A} (a : A) : writer (ret a).
Proof. eexists _, _. apply writes_ret. Qed.

Lemma writer_bind {A B} (m : M A) (f : A -> M B) :
  writer m -> (forall a, writer (f a)) -> writer (bind m f).
Proof.
  intros (a & t & Hm) Hf. destruct (Hf a) as (b & u & Hb).
  eexists _, _. by eapply writes_bind.
Qed.

Lemma writer_fprintf s : writer (fprintf s).
Proof. eexists _, _. apply writes_fprintf. Qed.

Lemma writer_fwrite p n : writer (fwrite p n).
Proof. eexists _, _. apply writes_fwrite. Qed.

Lemma writer_add written m : writer m -> writer (add written m).
Proof. intros (n & t & Hm). eexists _, _. by apply writes_add. Qed.

Lemma writer_add_if c written m : writer m -> writer (add_if c written m).
Proof. destruct c; simpl; [apply writer_add | intros _; apply writer_ret]. Qed.

(** What a writer writes can be read off a run in the empty world. *)
Lemma writes_compute {A} (m : M A) :
  writer m -> writes m (fst (m empty_world)) (stream (snd (m empty_world))).
Proof. intros (a & t & Hm). by rewrite (Hm empty_world). Qed.

Lemma writer_when c m : writer m -> writer (when c m).
Proof.
  intros (n & t & Hm). eexists _, _. eapply writes_when, Hm.
Qed.

Ltac writer_steps :=
  repeat match goal with
    | |- writer (ret _) => apply writer_ret
    | |- writer (when _ _) => apply writer_when
    | |- writer (fprintf _) => apply writer_fprintf
    | |- writer (fwrite _ _) => apply writer_fwrite
    | |- writer (add_if _ _ _) => apply writer_add_if
    | |- writer (add _ _) => apply writer_add
    | |- writer (bind _ _) => apply writer_bind; [|intros ?]
    | |- writer (if ?c then _ else _) => destruct c
    | |- writer (match ?x with Some _ => _ | None => _ end) => destruct x
    end.

Lemma writer_tail F k options written : writer (write_tail F k options written).
Proof. unfold write_tail. writer_steps. Qed.

Lemma writer_value F k options written : writer (write_value F k options written).
Proof. unfold write_value. writer_steps. Qed.

Lemma writer_opening F k parent parentSize options :
  writer (write_opening F k parent parentSize options).
Proof.
  destruct (writes_opening F k parent parentSize options) as (n & t & _ & H).
  by exists n, t.
Qed.

Lemma writer_keyToStreamBasename F k parent parentSize options :
  writer (keyToStreamBasename F k parent parentSize options).
Proof.
  unfold keyToStreamBasename.
  apply writer_bind; [apply writer_opening|]. intros written.
  apply writer_bind; [apply writer_value|]. intros [[] n]; simpl.
  - apply writer_tail.
  - apply writer_ret.
Qed.

Lemma writes_tail F k options written :
  writes (write_tail F k options written)
    (fst (write_tail F k options written empty_world))
    (closing F options (keyComment k)).
Proof.
  assert (exists n, writes (write_tail F k options written) n
                      (closing F options (keyComment k))) as [n Hn].
  { unfold write_tail, closing, unless, comment_element.
    destruct (isset options (KDB_O_CONDENSED F)), (keyComment k) as [c|];
      cbn [negb is_null add_if]; eexists; writes_run; text_eq. }
  eapply writes_eq; [exact Hn| |reflexivity].
  by rewrite (Hn empty_world).
Qed.

(** The two tests of line 195 on a string value. *)
Lemma string_value_tests k s :
  string_value k s ->
  is_null (data k) = false /\ keyIsString k = true /\
  dataSize k = Z.of_nat (length s) + 1 /\
  (forall d, data k = Some d -> d = s ++ [NUL]) /\ cstr (s ++ [NUL]) = s.
Proof.
  intros (Hstr & Hdata & Hnul). unfold dataSize. rewrite Hdata.
  rewrite length_app. simpl. repeat split; [done|lia|congruence|].
  by apply cstr_terminated.
Qed.

(** What [write_value] and [write_tail] write after the opening tag. *)
Lemma writes_body F k parent parentSize options body :
  (forall written, exists r,
     writes (r <- write_value F k options written ;;
             if fst r then write_tail F k options (snd r) else ret (snd r))
       r body) ->
  exists n t, opening t /\
    writes (keyToStreamBasename F k parent parentSize options) n (t ++ body).
Proof.
  intros Hbody.
  destruct (writes_opening F k parent parentSize options) as (n0 & t0 & Ho & Hw).
  destruct (Hbody n0) as [n Hn].
  exists n, t0. split; [done|]. unfold keyToStreamBasename. by eapply writes_bind.
Qed.


(** ** The value of a key: attribute or element *)

(** C1, as amended: a string value of at most 15 bytes before its terminator
    (16 bytes stored) and without newline is written as the attribute value
    of the opening tag, which is then closed; no value element is written. *)
Theorem short_string_value_is_attribute F k s parent parentSize options :
  string_value k s -> (length s <= 15)%nat -> LF ∉ s ->
  exists n t, opening t /\
    writes (keyToStreamBasename F k parent parentSize options) n
      (t ++ value_attribute F options s (keyComment k)).
Proof.
  intros Hv Hlen Hlf.
  destruct (string_value_tests k s Hv) as (Hnull & Hstr & Hsize & Hd & Hc).
  destruct (writes_opening F k parent parentSize options) as (n0 & t0 & Ho & Hw).
  assert (Hshort : (dataSize k <=? 16) = true) by (apply Z.leb_le; lia).
  assert (Hnl : strchr (s ++ [NUL]) LF = None) by (by apply strchr_absent).
  unfold keyToStreamBasename, write_value, value_attribute.
  rewrite Hnull, Hshort, Hstr.
  destruct (data k) as [d|] eqn:Hdata; [|done].
  rewrite (Hd d eq_refl), Hnl, Hc.
  pose proof (writes_tail F k options) as Ht.
  destruct (isset options (KDB_O_CONDENSED F)), (keyComment k) as [c|];
    cbn [negb is_null andb add_if unless];
    eexists _, t0; (split; [done|]);
    (eapply writes_eq;
     [ eapply writes_bind; [exact Hw|]; writes_steps; cbn [fst snd]; writes_steps;
       try apply Ht
     | reflexivity
     | text_eq ]).
Qed.

Lemma short_string_value_is_attribute_witness :
  exists n t, opening t /\
    writes (keyToStreamBasename sample_flags fifteen_bytes_key None 0 0) n
      (t ++ value_attribute sample_flags 0 (lit "255.255.255.255") None).
Proof.
  apply (short_string_value_is_attribute sample_flags fifteen_bytes_key
           (lit "255.255.255.255") None 0 0).
  - repeat split. compute_done.
  - vm_compute. lia.
  - compute_done.
Defined.

(** C1 as stated fails: a string value of 16 bytes before its terminator,
    without newline, is stored in 17 bytes and is written as a value
    element. *)
Lemma sixteen_bytes_value_is_element :
  string_value sixteen_bytes_key (lit "0123456789abcdef") /\
  (length (lit "0123456789abcdef") <= 16)%nat /\
  (LF ∉ lit "0123456789abcdef") /\
  (exists n, writes (keyToStreamBasename sample_flags sixteen_bytes_key None 0 0) n
     (lit "<key name=" ++ quoted (lit "user:/a")
        ++ value_element sample_flags 0 (lit "0123456789abcdef") None)) /\
  ~ (exists n t, writes (keyToStreamBasename sample_flags sixteen_bytes_key None 0 0) n
       (t ++ value_attribute sample_flags 0 (lit "0123456789abcdef") None)).
Proof.
  assert (Hrun : exists n,
    writes (keyToStreamBasename sample_flags sixteen_bytes_key None 0 0) n
      (lit "<key name=" ++ quoted (lit "user:/a")
         ++ value_element sample_flags 0 (lit "0123456789abcdef") None)).
  { eexists. eapply writes_eq;
      [apply writes_compute, writer_keyToStreamBasename | reflexivity |].
    vm_compute. reflexivity. }
  repeat split.
  - compute_done.
  - vm_compute. lia.
  - compute_done.
  - exact Hrun.
  - intros (n & t & H). destruct Hrun as [n' H'].
    destruct (writes_inj _ _ _ _ _ H H') as [_ Heq].
    apply (f_equal (@rev ascii)) in Heq. rewrite rev_app_distr in Heq.
    vm_compute in Heq. discriminate Heq.
Qed.

(** C5: a string value of more than 16 bytes, or with a newline in it, is
    written as a value element whose CDATA section holds the stored bytes
    without the terminator. *)
Theorem long_string_value_is_element F k s parent parentSize options :
  string_value k s -> dataSize k < 2 ^ 64 ->
  (16 < length s)%nat \/ LF ∈ s ->
  exists n t, opening t /\
    writes (keyToStreamBasename F k parent parentSize options) n
      (t ++ value_element F options s (keyComment k)).
Proof.
  intros Hv Hfit Hlong.
  destruct (string_value_tests k s Hv) as (Hnull & Hstr & Hsize & Hd & Hc).
  destruct (writes_opening F k parent parentSize options) as (n0 & t0 & Ho & Hw).
  assert (Htest : (dataSize k <=? 16) && true && is_null (strchr (s ++ [NUL]) LF) = false).
  { destruct Hlong as [Hlen | Hlf].
    - replace (dataSize k <=? 16) with false; [done|].
      symmetry. apply Z.leb_gt. lia.
    - rewrite strchr_present; [apply andb_false_r | done | by destruct Hv as (_ & _ & ?)]. }
  assert (Hcount : takeZ (size_sub (dataSize k) 1) (s ++ [NUL]) = s).
  { unfold size_sub. rewrite Hsize, Z.add_simpl_r, Z.mod_small by lia.
    apply takeZ_app. }
  unfold keyToStreamBasename, write_value, value_element.
  rewrite Hnull, Hstr.
  destruct (data k) as [d|] eqn:Hdata; [|done].
  rewrite (Hd d eq_refl), Htest.
  pose proof (writes_tail F k options) as Ht.
  destruct (isset options (KDB_O_CONDENSED F));
    cbn [negb is_null andb add_if unless];
    eexists _, t0; (split; [done|]);
    (eapply writes_eq;
     [ eapply writes_bind; [exact Hw|]; writes_steps; cbn [fst snd]; apply Ht
     | reflexivity
     | rewrite Hcount; text_eq ]).
Qed.

Lemma long_string_value_is_element_witness :
  exists n t, opening t /\
    writes (keyToStreamBasename sample_flags monitor_key None 0 0) n
      (t ++ value_element sample_flags 0 (lit "Samsung TFT panel")
              (Some (lit "My monitor"))).
Proof.
  apply (long_string_value_is_element sample_flags monitor_key
           (lit "Samsung TFT panel") None 0 0).
  - repeat split. compute_done.
  - vm_compute. reflexivity.
  - left. vm_compute. lia.
Defined.

(** ** The name of a key: basename or full name *)

Lemma writes_keyToStreamBasename F k parent parentSize options :
  exists n0 n t rest, opening t /\
    writes (write_opening F k parent parentSize options) n0 t /\
    writes (keyToStreamBasename F k parent parentSize options) n (t ++ rest).
Proof.
  destruct (writes_opening F k parent parentSize options) as (n0 & t & Ho & Hw).
  assert (writer (r <- write_value F k options n0 ;;
                  if fst r then write_tail F k options (snd r) else ret (snd r)))
    as (n & rest & Hrest).
  { apply writer_bind; [apply writer_value|]. intros [[] m]; simpl.
    - apply writer_tail.
    - apply writer_ret. }
  exists n0, n, t, rest. repeat split; [done..|].
  unfold keyToStreamBasename. by eapply writes_bind.
Qed.

(** C6: the basename that is written is never empty, and when the compared
    bytes of the parent match and nothing but path separators follows them
    in the key name, the key is written with its name. *)
Theorem empty_basename_falls_back_to_name F k p parentSize options :
  (exists n t rest, opening t /\
     writes (keyToStreamBasename F k (Some p) parentSize options) n (t ++ rest)) /\
  (memcmp p (key k) (initial_skip p parentSize) = 0 ->
   deref (skip_separators (drop (initial_skip p parentSize) (key k))) = NUL ->
   exists n rest,
     writes (keyToStreamBasename F k (Some p) parentSize options) n
       (lit "<key name="
          ++ quoted (cstr (if isset options (KDB_O_FULLNAME F) then keyGetName k
                           else key k))
          ++ rest)).
Proof.
  destruct (writes_keyToStreamBasename F k (Some p) parentSize options)
    as (n0 & n & t & rest & Ho & Hw & Hk).
  split; [by exists n, t, rest|].
  intros Hfound Hempty. exists n, rest.
  eapply writes_eq; [exact Hk | reflexivity |].
  rewrite app_assoc. f_equal.
  assert (exists m, writes (write_opening F k (Some p) parentSize options) m
            (lit "<key name="
               ++ quoted (cstr (if isset options (KDB_O_FULLNAME F) then keyGetName k
                                else key k)))) as [m Hm].
  { unfold write_opening, write_basename. rewrite Hfound. simpl (0 =? 0).
    cbv iota. destruct (decide _) as [_|]; [|done].
    destruct (isset options (KDB_O_FULLNAME F)) eqn:Hfull; eexists;
      (eapply writes_eq;
       [ eapply writes_bind; [apply writes_ret|];
         unfold write_name; rewrite Hfull; change (0 =? 0) with true; cbv iota;
         writes_steps
       | reflexivity
       | text_eq ]). }
  by destruct (writes_inj _ _ _ _ _ Hw Hm).
Qed.

Lemma empty_basename_falls_back_to_name_witness :
  exists n rest,
    writes (keyToStreamBasename sample_flags monitor_key
              (Some (lit "system:/sw/xorg/Monitor/Monitor0/Name")) 0 0) n
      (lit "<key name=" ++ quoted (lit "system:/sw/xorg/Monitor/Monitor0/Name")
         ++ rest).
Proof.
  apply (proj2 (empty_basename_falls_back_to_name sample_flags monitor_key
                  (lit "system:/sw/xorg/Monitor/Monitor0/Name") 0 0)).
  - vm_compute. reflexivity.
  - vm_compute. reflexivity.
Defined.

(** ** The debug line of a key *)

Lemma writes_flags F k options :
  isset options (KDB_O_SHOWFLAGS F) = true ->
  exists pre, writes (output_flags F k options) 1
                (pre ++ lit "Flags: " ++ flag_codes k ++ [LF]).
Proof.
  intros Hflags. unfold output_flags, flag_codes. rewrite Hflags.
  exists ((if isset options (KDB_O_SHOWMETA F) then lit " : " else [])
            ++ (if negb (isset options (KDB_O_SHOWMETA F)) then lit " " else [])).
  eapply writes_eq; [writes_steps | reflexivity |].
  destruct (isset options (KDB_O_SHOWMETA F)), (keyIsBinary k), (keyIsString k),
    (keyNeedSync k); cbn [negb]; text_eq.
Qed.

Lemma field_step_name k :
  exists t, field_step (output_name k) (1 <? keyGetNameSize k) t.
Proof.
  eexists. intros w. unfold output_name.
  destruct (1 <? keyGetNameSize k); [|done].
  unfold bind, elektraMalloc, elektraFree, fprintf, ret, bump. simpl.
  destruct (malloc_oracle w (malloc_calls w)); [reflexivity|].
  by rewrite app_nil_r.
Qed.

Lemma field_step_value F overrun k options :
  exists t, field_step (output_value F overrun k options)
              (isset options (KEY_VALUE F) && (1 <? keyGetValueSize k)) t.
Proof.
  unfold output_value.
  destruct (isset options (KEY_VALUE F) && (1 <? keyGetValueSize k));
    [|by exists []].
  destruct (keyIsBinary k); eexists; intros w;
    unfold bind, elektraMalloc, elektraFree, fprintf, ret, bump; simpl;
    (destruct (malloc_oracle w (malloc_calls w)); [reflexivity|]);
    by rewrite app_nil_r.
Qed.

Lemma field_step_comment F k options :
  exists t, field_step (output_comment F k options)
              (isset options (KEY_META F) && (1 <? keyGetCommentSize k)) t.
Proof.
  eexists. intros w. unfold output_comment.
  destruct (isset options (KEY_META F) && (1 <? keyGetCommentSize k)); [|done].
  unfold bind, elektraMalloc, elektraFree, fprintf, ret, bump. simpl.
  destruct (malloc_oracle w (malloc_calls w)); [reflexivity|].
  by rewrite app_nil_r.
Qed.

Lemma writes_flags_line F k options :
  exists t, writes (output_flags F k options) 1 (t ++ [LF]).
Proof.
  unfold output_flags.
  match goal with
  | |- context [bind ?p1 (fun _ => bind ?p2 _)] =>
      assert (writer p1) as (a1 & t1 & H1) by writer_steps;
      assert (writer p2) as (a2 & t2 & H2) by writer_steps
  end.
  exists (t1 ++ t2).
  eapply writes_eq;
    [ eapply writes_bind; [exact H1|]; eapply writes_bind; [exact H2|]; writes_steps
    | reflexivity
    | text_eq ].
Qed.

(** [keyOutput] is a sequence of three field steps, for the name, the value
    and the comment, and the flags. *)
Lemma keyOutput_fields F overrun k options :
  exists fs,
    buffers_of fs = buffers_needed F k options /\
    forall w,
      keyOutput F overrun k options w =
        let (ok, w') := run_fields fs w in
        if ok then output_flags F k options w' else (-1, w').
Proof.
  destruct (field_step_name k) as [t1 H1].
  destruct (field_step_value F overrun k options) as [t2 H2].
  destruct (field_step_comment F k options) as [t3 H3].
  exists [(1 <? keyGetNameSize k, t1);
          (isset options (KEY_VALUE F) && (1 <? keyGetValueSize k), t2);
          (isset options (KEY_META F) && (1 <? keyGetCommentSize k), t3)].
  split.
  { unfold buffers_needed, name_needed, value_needed, comment_needed.
    cbn [buffers_of]. lia. }
  intros w. unfold keyOutput, bind. cbn [run_fields].
  rewrite (H1 w).
  destruct (1 <? keyGetNameSize k);
    [destruct (malloc_oracle w (malloc_calls w)); [|done]|];
    cbn [negb]; cbv beta;
    match goal with |- context [output_value F overrun k options ?w1] => rewrite (H2 w1) end;
    (destruct (isset options (KEY_VALUE F) && (1 <? keyGetValueSize k));
     [match goal with |- context [if malloc_oracle ?w1 ?c then _ else _] =>
        destruct (malloc_oracle w1 c); [|done] end|]);
    cbn [negb]; cbv beta;
    match goal with |- context [output_comment F k options ?w1] => rewrite (H3 w1) end;
    (destruct (isset options (KEY_META F) && (1 <? keyGetCommentSize k));
     [match goal with |- context [if malloc_oracle ?w1 ?c then _ else _] =>
        destruct (malloc_oracle w1 c); [|done] end|]);
    cbn [negb]; cbv beta;
    by destruct (output_flags F k options _).
Qed.

Lemma run_fields_frame fs w :
  keysets (snd (run_fields fs w)) = keysets w /\
  malloc_oracle (snd (run_fields fs w)) = malloc_oracle w /\
  (malloc_calls w <= malloc_calls (snd (run_fields fs w)))%nat.
Proof.
  revert w. induction fs as [|[[] t] fs IH]; intros w; cbn [run_fields].
  - done.
  - destruct (malloc_oracle w (malloc_calls w)).
    + destruct (IH (bump w t)) as (Hk & Ho & Hc). simpl in *. repeat split; [done..|lia].
    + simpl. repeat split; [done..|lia].
  - apply IH.
Qed.

(** A sequence of field steps that succeeds has made one allocation for
    each field that needs a buffer, and all of them have succeeded; one that
    fails has stopped at the first allocation that fails. *)
Lemma run_fields_calls fs w :
  (fst (run_fields fs w) = true ->
   malloc_calls (snd (run_fields fs w)) = (malloc_calls w + buffers_of fs)%nat /\
   forall i, (i < buffers_of fs)%nat -> malloc_oracle w (malloc_calls w + i) = true) /\
  (fst (run_fields fs w) = false ->
   exists i, (i < buffers_of fs)%nat /\
     malloc_oracle w (malloc_calls w + i) = false /\
     (forall j, (j < i)%nat -> malloc_oracle w (malloc_calls w + j) = true) /\
     malloc_calls (snd (run_fields fs w)) = S (malloc_calls w + i)).
Proof.
  revert w. induction fs as [|[[] t] fs IH]; intros w; cbn [run_fields buffers_of].
  - simpl. split; [|done]. intros _. split; [lia|]. intros i Hi. lia.
  - destruct (malloc_oracle w (malloc_calls w)) eqn:Hw.
    + destruct (IH (bump w t)) as [IH1 IH2]. simpl in IH1, IH2. split.
      * intros Hok. destruct (IH1 Hok) as [Hc Hall]. split; [lia|].
        intros [|i] Hi; [by rewrite Nat.add_0_r|].
        replace (malloc_calls w + S i)%nat with (S (malloc_calls w) + i)%nat by lia.
        apply Hall. lia.
      * intros Hf. destruct (IH2 Hf) as (i & Hi & Hoi & Hbefore & Hc).
        exists (S i). split; [lia|].
        replace (malloc_calls w + S i)%nat with (S (malloc_calls w) + i)%nat by lia.
        split; [done|]. split; [|lia].
        intros [|j] Hj; [by rewrite Nat.add_0_r|].
        replace (malloc_calls w + S j)%nat with (S (malloc_calls w) + j)%nat by lia.
        apply Hbefore. lia.
    + simpl. split; [done|]. intros _. exists 0%nat.
      rewrite Nat.add_0_r. repeat split; [lia | done | intros j Hj; lia].
  - destruct (IH w) as [IH1 IH2]. split.
    + intros Hok. destruct (IH1 Hok) as [Hc Hall]. split; [lia|]. intros i Hi.
      apply Hall. lia.
    + intros Hf. destruct (IH2 Hf) as (i & Hi & Hrest). exists i. split; [lia|done].
Qed.

(** The text of a failed sequence of field steps starts the text of the
    sequence run without failure. *)
Lemma run_fields_text fs w :
  exists t rest,
    stream (snd (run_fields fs w)) = stream w ++ t /\
    fst (run_fields fs (all_succeed w)) = true /\
    stream (snd (run_fields fs (all_succeed w))) = stream w ++ t ++ rest.
Proof.
  revert w. induction fs as [|[[] t0] fs IH]; intros w; cbn [run_fields].
  - exists [], []. simpl. by rewrite app_nil_r.
  - change (malloc_oracle (all_succeed w) (malloc_calls (all_succeed w))) with true.
    cbv iota. change (bump (all_succeed w) t0) with (all_succeed (bump w t0)).
    destruct (IH (bump w t0)) as (t & rest & Ht & Hok & Hall). simpl in Ht, Hall.
    destruct (malloc_oracle w (malloc_calls w)).
    + exists (t0 ++ t), rest. rewrite Ht, Hall.
      split; [text_eq | split; [done | text_eq]].
    + exists [], (t0 ++ t ++ rest). simpl. rewrite Hall.
      split; [text_eq | split; [done | text_eq]].
  - apply IH.
Qed.

(** C8: [keyOutput] returns -1 or 1. The line needs a buffer for the name
    if the size of the name exceeds 1, for the value if KEY_VALUE is set and
    the size of the value exceeds 1, and for the comment if KEY_META is set
    and the size of the comment exceeds 1; [buffers_needed] is their number.
    The result is -1 exactly when one of the next [buffers_needed]
    allocations fails, and 1 when all of them succeed. On failure the
    function stops at once: the first allocation that fails is the last one
    it makes, and the text printed is the line of a run without failure,
    cut short. *)
Theorem keyOutput_fails_with_allocation F overrun k options w :
  let r := keyOutput F overrun k options w in
  (fst r = -1 \/ fst r = 1) /\
  (fst r = -1 <->
   exists i, (i < buffers_needed F k options)%nat /\
             malloc_oracle w (malloc_calls w + i) = false) /\
  (fst r = 1 ->
   malloc_calls (snd r) = (malloc_calls w + buffers_needed F k options)%nat) /\
  (fst r = -1 ->
   exists i, (i < buffers_needed F k options)%nat /\
     malloc_oracle w (malloc_calls w + i) = false /\
     (forall j, (j < i)%nat -> malloc_oracle w (malloc_calls w + j) = true) /\
     malloc_calls (snd r) = S (malloc_calls w + i) /\
     exists t rest, rest ≠ [] /\
       stream (snd r) = stream w ++ t /\
       stream (snd (keyOutput F overrun k options (all_succeed w)))
       = stream w ++ t ++ rest).
Proof.
  intros r. subst r.
  destruct (keyOutput_fields F overrun k options) as (fs & <- & Hfs).
  destruct (writes_flags_line F k options) as [tf Hf].
  rewrite !Hfs.
  destruct (run_fields_calls fs w) as [Hgood Hbad].
  destruct (run_fields_text fs w) as (t & rest & Ht & Hok & Hall).
  destruct (run_fields fs (all_succeed w)) as [ok' w''] eqn:Hrun'.
  simpl in Hok, Hall. subst ok'.
  destruct (run_fields fs w) as [[] w'] eqn:Hrun; simpl in *.
  - destruct (Hgood eq_refl) as [Hcalls Htrue].
    rewrite !Hf. simpl. split; [by right|]. split; [|split; [done|done]].
    split; [done|]. intros (i & Hi & Hoi). rewrite Htrue in Hoi by done. done.
  - destruct (Hbad eq_refl) as (i & Hi & Hoi & Hbefore & Hcalls).
    split; [by left|]. split; [|split; [done|]].
    + split; [intros _; by exists i | done].
    + intros _. exists i. repeat (split; [done|]).
      exists t, (rest ++ tf ++ [LF]). rewrite Hf. simpl. rewrite Hall.
      split; [|split; [done | text_eq]].
      intros Hnil. apply app_eq_nil in Hnil as [_ Hnil].
      by apply app_eq_nil in Hnil as [_ Hnil].
Qed.

Lemma keyOutput_fails_with_allocation_witness :
  fst (keyOutput sample_flags zero_behind monitor_key 2 sample_failing_world) = -1.
Proof.
  apply (proj1 (proj2 (keyOutput_fails_with_allocation sample_flags zero_behind
                         monitor_key 2 sample_failing_world))).
  exists 1%nat. split; [vm_compute; lia | reflexivity].
Defined.

(** C7: with the show-flags option, a line that is completed ends with
    Flags: and the codes b for a binary key, s for a string key and s for a
    key that needs synchronisation, in this order: bs for a binary key that
    needs synchronisation, ss for a string key that does. *)
Theorem keyOutput_flag_codes F overrun k options w :
  isset options (KDB_O_SHOWFLAGS F) = true ->
  fst (keyOutput F overrun k options w) = 1 ->
  (exists pre,
     stream (snd (keyOutput F overrun k options w))
     = stream w ++ pre ++ lit "Flags: " ++ flag_codes k ++ [LF]) /\
  (keyIsBinary k = true -> keyIsString k = false -> keyNeedSync k = true ->
   flag_codes k = lit "bs") /\
  (keyIsBinary k = false -> keyIsString k = true -> keyNeedSync k = true ->
   flag_codes k = lit "ss").
Proof.
  intros Hflags Hret. split; [|by split; unfold flag_codes; intros -> -> ->].
  destruct (keyOutput_fields F overrun k options) as (fs & _ & Hfs).
  destruct (writes_flags F k options Hflags) as [pre Hf].
  destruct (run_fields_text fs w) as (t & _ & Ht & _).
  rewrite Hfs in Hret |- *.
  destruct (run_fields fs w) as [[] w']; simpl in *; [|done].
  exists (t ++ pre). rewrite Hf. simpl. rewrite Ht. text_eq.
Qed.

Lemma keyOutput_flag_codes_witness :
  exists pre,
    stream (snd (keyOutput sample_flags zero_behind binary_key (2 ^ 14) empty_world))
    = stream empty_world ++ pre ++ lit "Flags: " ++ lit "bs" ++ [LF].
Proof.
  destruct (keyOutput_flag_codes sample_flags zero_behind binary_key (2 ^ 14) empty_world)
    as [[pre Hpre] _].
  - vm_compute. reflexivity.
  - vm_compute. reflexivity.
  - exists pre. exact Hpre.
Defined.

(** ** Key sets *)

Lemma bind_run {A B} (m : M A) (f : A -> M B) w :
  bind m f w = f (fst (m w)) (snd (m w)).
Proof. unfold bind. by destruct (m w). Qed.

Lemma keeps_ret {A} (a : A) : keeps_keysets (ret a).
Proof. done. Qed.

Lemma keeps_bind {A B} (m : M A) (f : A -> M B) :
  keeps_keysets m -> (forall a, keeps_keysets (f a)) -> keeps_keysets (bind m f).
Proof. intros Hm Hf w. by rewrite bind_run, Hf, Hm. Qed.

Lemma keeps_writer {A} (m : M A) : writer m -> keeps_keysets m.
Proof. intros (a & t & Hm) w. by rewrite Hm. Qed.

Lemma keeps_ksGetSize cks : keeps_keysets (ksGetSize cks).
Proof. done. Qed.

Lemma keeps_ksAtCursor cks it : keeps_keysets (ksAtCursor cks it).
Proof. done. Qed.

Lemma keeps_cursor_loop {S} cks its (body : option Key -> S -> M S) s :
  (forall k s, keeps_keysets (body k s)) -> keeps_keysets (cursor_loop cks its body s).
Proof.
  intros Hbody. revert s. induction its as [|it its IH]; intros s; simpl.
  - apply keeps_ret.
  - apply keeps_bind; [apply keeps_ksAtCursor|]. intros k.
    apply keeps_bind; [apply Hbody | apply IH].
Qed.

Lemma keeps_for_cursor {S} cks (body : option Key -> S -> M S) s :
  (forall k s, keeps_keysets (body k s)) -> keeps_keysets (for_cursor cks body s).
Proof.
  intros Hbody. apply keeps_bind; [apply keeps_ksGetSize|]. intros size.
  by apply keeps_cursor_loop.
Qed.

Lemma keeps_keyOutput F overrun k options : keeps_keysets (keyOutput F overrun k options).
Proof.
  intros w. destruct (keyOutput_fields F overrun k options) as (fs & _ & Hfs).
  rewrite Hfs.
  destruct (run_fields_frame fs w) as (Hk & _).
  destruct (writes_flags_line F k options) as [tf Hf].
  destruct (run_fields fs w) as [[] w']; simpl in *; [|done].
  by rewrite Hf.
Qed.

(** A snapshot that is taken, used by a computation that keeps the key sets
    and released leaves the key sets as they were. *)
Lemma snapshot_released {A B} ks (body : nat -> M A) (k : A -> M B) w :
  (forall cks, keeps_keysets (body cks)) ->
  (forall a, keeps_keysets (k a)) ->
  keysets (snd ((cks <- ksDup ks ;; a <- body cks ;; ksDel cks ;;; k a) w))
  = keysets w.
Proof.
  intros Hbody Hk. rewrite !bind_run. rewrite Hk. simpl.
  rewrite Hbody. simpl. apply delete_insert_id.
  apply not_elem_of_dom, is_fresh.
Qed.

(** C10: [ksOutput] returns 1 whatever [keyOutput] returns for the keys, in
    particular in a world in which [keyOutput] returns -1 for a key of the
    set. *)
Theorem ksOutput_returns_1 :
  (forall F overrun ks options w, fst (ksOutput F overrun ks options w) = 1) /\
  (exists F overrun ks options w k,
     k ∈ ks_keys ks w /\ fst (keyOutput F overrun k options w) = -1 /\
     fst (ksOutput F overrun ks options w) = 1).
Proof.
  assert (H : forall F overrun ks options w, fst (ksOutput F overrun ks options w) = 1).
  { intros F overrun ks options w. unfold ksOutput. by rewrite !bind_run. }
  split; [exact H|].
  exists sample_flags, zero_behind, 7%nat, 0,
    (mkWorld [] (keysets sample_world) (fun _ => false) 0), monitor_key.
  split; [|split; [|apply H]].
  - apply (list_elem_of_lookup_2 _ 0%nat). vm_compute. reflexivity.
  - vm_compute. reflexivity.
Qed.

Lemma keeps_ksOutput F overrun ks options w :
  keysets (snd (ksOutput F overrun ks options w)) = keysets w.
Proof.
  unfold ksOutput. rewrite !bind_run. cbn [ret ksDel snd keysets].
  rewrite keeps_for_cursor.
  - match goal with
    | |- context [snd ((if ?c then ?a else ?b) ?w1)] =>
        assert (keeps_keysets (if c then a else b)) as ->
    end.
    { destruct (isset _ _); [|apply keeps_ret].
      apply keeps_bind; [apply keeps_ksGetSize|]. intros n.
      apply keeps_writer, writer_fprintf. }
    simpl. apply delete_insert_id, not_elem_of_dom, is_fresh.
  - intros k size. apply keeps_bind.
    { apply keeps_writer. writer_steps. }
    intros _. apply keeps_bind; [|intros; apply keeps_ret].
    destruct k; [apply keeps_keyOutput | apply keeps_ret].
Qed.

(** ** The document of a key set *)

Lemma writes_on_writes {A} cks l (m : M A) a t : writes m a t -> writes_on cks l m a t.
Proof. intros Hm w _. apply Hm. Qed.

Lemma writes_on_bind {A B} cks l (m : M A) (f : A -> M B) a b t u :
  writes_on cks l m a t -> writes_on cks l (f a) b u ->
  writes_on cks l (bind m f) b (t ++ u).
Proof.
  intros Hm Hf w Hw. unfold bind.
  rewrite (Hm w Hw), (Hf (with_stream w (stream w ++ t)) Hw).
  unfold with_stream. simpl. by rewrite app_assoc.
Qed.

Lemma writes_on_eq {A} cks l (m : M A) a t a' t' :
  writes_on cks l m a t -> a = a' -> t = t' -> writes_on cks l m a' t'.
Proof. by intros H <- <-. Qed.

Lemma writes_addu written m n t :
  writes m n t -> writes (addu written m) ((written + n) mod 2 ^ 64) t.
Proof.
  intros Hm. unfold addu. rewrite <- (app_nil_r t).
  eapply writes_bind; [exact Hm | apply writes_ret].
Qed.

Lemma writes_text_of {A} (m : M A) :
  writer m -> exists a, writes m a (text_of m).
Proof. intros Hm. eexists. by apply writes_compute. Qed.

(** The cursor loop of [ksToStream] writes the elements of the keys at the
    positions it visits. *)
Lemma cursor_loop_writes cks l (g : Key -> M Z) its written :
  (forall k, writer (g k)) ->
  exists n,
    writes_on cks l
      (cursor_loop cks its
         (fun key written =>
            match key with
            | Some k => addu written (g k)
            | None => ret written
            end) written)
      n (concat ((fun it => from_option (fun k => text_of (g k)) [] (l !! it)) <$> its)).
Proof.
  intros Hg. revert written.
  induction its as [|it its IH]; intros written; cbn [cursor_loop fmap list_fmap concat].
  - eexists. apply writes_on_writes, writes_ret.
  - destruct (l !! it) as [k|] eqn:Hk; cbn [from_option].
    + destruct (writes_text_of _ (Hg k)) as [a Ha].
      destruct (IH ((written + a) mod 2 ^ 64)) as [n Hn].
      exists n. intros w Hw. unfold bind at 1, ksAtCursor. rewrite Hw, Hk.
      eapply writes_on_bind; [apply writes_on_writes, writes_addu, Ha | apply Hn | done].
    + destruct (IH written) as [n Hn].
      exists n. intros w Hw. unfold bind at 1, ksAtCursor. rewrite Hw, Hk.
      eapply (writes_on_bind _ _ _ _ _ _ []);
        [apply writes_on_writes, writes_ret | apply Hn | done].
Qed.

Lemma lookup_positions {A} (pre l : list A) :
  (fun it => (pre ++ l) !! it) <$> seq (length pre) (length l) = Some <$> l.
Proof.
  revert pre. induction l as [|x l IH]; intros pre; [done|].
  cbn [length seq fmap list_fmap]. rewrite list_lookup_middle by done. f_equal.
  specialize (IH (pre ++ [x])).
  rewrite length_app, Nat.add_1_r, <- app_assoc in IH. exact IH.
Qed.

Lemma for_cursor_writes cks l (g : Key -> M Z) written :
  (forall k, writer (g k)) ->
  exists n,
    writes_on cks l
      (for_cursor cks
         (fun key written =>
            match key with
            | Some k => addu written (g k)
            | None => ret written
            end) written)
      n (concat ((fun k => text_of (g k)) <$> l)).
Proof.
  intros Hg.
  destruct (cursor_loop_writes cks l g (seq 0 (length l)) written Hg) as [n Hn].
  assert (Htext :
    (fun it => from_option (fun k => text_of (g k)) [] (l !! it)) <$> seq 0 (length l)
    = (fun k => text_of (g k)) <$> l).
  { pose proof (lookup_positions [] l) as Hl. simpl in Hl.
    trans (from_option (fun k => text_of (g k)) []
             <$> ((fun it => l !! it) <$> seq 0 (length l))).
    - by rewrite <- list_fmap_compose.
    - rewrite Hl, <- list_fmap_compose. by apply list_fmap_ext. }
  rewrite Htext in Hn.
  exists n. intros w Hw. unfold for_cursor, bind at 1, ksGetSize.
  rewrite Hw, Nat2Z.id. by apply Hn.
Qed.

Lemma writes_on_ksGetSize {A} cks l (f : Z -> M A) a t :
  writes_on cks l (f (Z.of_nat (length l))) a t ->
  writes_on cks l (size <- ksGetSize cks ;; f size) a t.
Proof. intros Hf w Hw. unfold bind, ksGetSize. rewrite Hw. by apply Hf. Qed.

Lemma writes_header F cks l options written :
  exists n, writes_on cks l (write_header F cks options written) n
              (header_text F options (Z.of_nat (length l))).
Proof.
  unfold write_header, header_text.
  destruct (isset options (KDB_O_HEADER F));
    [|eexists; apply writes_on_writes, writes_addu, writes_fprintf].
  destruct (isset (Z.lnot options) (KDB_O_CONDENSED F)); eexists.
  - eapply writes_on_bind; [apply writes_on_writes, writes_addu, writes_fprintf|].
    eapply writes_on_bind;
      [apply writes_on_ksGetSize, writes_on_writes, writes_addu, writes_fprintf|].
    apply writes_on_writes, writes_addu, writes_fprintf.
  - eapply writes_on_eq;
      [ eapply writes_on_bind; [apply writes_on_writes, writes_addu, writes_fprintf|];
        eapply writes_on_bind; [apply writes_on_writes, writes_ret|];
        apply writes_on_writes, writes_addu, writes_fprintf
      | reflexivity
      | reflexivity ].
Qed.

Lemma writes_keys F cp cks l options written :
  exists n, writes_on cks l (write_keys F cp cks options written) n
              (keys_text F (cp l) options l).
Proof.
  assert (Hflat : forall written, exists n,
    writes_on cks l
      (written <- addu written (fprintf (lit ">" ++ [LF])) ;;
       for_cursor cks
         (fun key written =>
            match key with
            | Some k => addu written (keyToStream F k options)
            | None => ret written
            end) written)
      n (lit ">" ++ [LF] ++ concat (key_text F options None <$> l))).
  { intros written'.
    destruct (for_cursor_writes cks l (fun k => keyToStream F k options)
                ((written' + Z.of_nat (length (lit ">" ++ [LF]))) mod 2 ^ 64))
      as [n Hn]; [intros k; apply writer_keyToStreamBasename|].
    exists n. eapply writes_on_eq;
      [ eapply writes_on_bind;
        [apply writes_on_writes, writes_addu, writes_fprintf | exact Hn]
      | reflexivity | reflexivity ]. }
  unfold write_keys, keys_text.
  destruct (isset options (KDB_O_HIER F)); cbn [andb]; [|apply Hflat].
  destruct (bool_decide (deref (cp l) = NUL)) eqn:Hcp; cbn [negb].
  - destruct (Hflat written) as [n Hn]. exists n. intros w Hw.
    unfold bind at 1. rewrite Hw, Hcp. by apply Hn.
  - destruct (for_cursor_writes cks l
                (fun k => keyToStreamBasename F k (Some (cp l)) 0 options)
                ((written + Z.of_nat (length (lit "        parent="
                     ++ quoted (cstr (cp l)) ++ lit ">" ++ [LF]))) mod 2 ^ 64))
      as [n Hn]; [intros k; apply writer_keyToStreamBasename|].
    exists n. intros w Hw. unfold bind at 1. rewrite Hw, Hcp. cbn [negb].
    revert w Hw. eapply writes_on_eq;
      [ eapply writes_on_bind;
        [apply writes_on_writes, writes_addu, writes_fprintf | exact Hn]
      | reflexivity | text_eq ].
Qed.

(** [ksToStream] writes the document of the key set and leaves the rest of
    the world as it was. *)
Lemma ksToStream_writes F cp ks options w :
  exists n, ksToStream F cp ks options w
            = (n, with_stream w (stream w ++ ks_text F cp options (ks_keys ks w))).
Proof.
  set (l := ks_keys ks w). set (cks := fresh (dom (keysets w))).
  destruct (writes_header F cks l options 0) as [n1 H1].
  destruct (writes_keys F cp cks l options n1) as [n2 H2].
  assert (Hfresh : keysets w !! cks = None) by apply not_elem_of_dom, is_fresh.
  set (w1 := snd (ksDup ks w)).
  assert (Hw1 : ks_keys cks w1 = l).
  { unfold ks_keys, w1. simpl. by rewrite lookup_insert_eq. }
  eexists. unfold ksToStream. rewrite bind_run. fold w1. change (fst (ksDup ks w)) with cks.
  unfold bind at 1. rewrite (H1 w1 Hw1).
  unfold bind at 1.
  rewrite (H2 (with_stream w1 (stream w1 ++ header_text F options (Z.of_nat (length l)))) Hw1).
  unfold bind, addu, fprintf, ksDel, ret, with_stream, ks_text. simpl.
  fold l. rewrite (delete_insert_id _ _ _ Hfresh). f_equal. f_equal. text_eq.
Qed.

(** C9: [ksToStream] and [ksOutput] leave the table of live key sets, the
    input key set and its keys included, as it was before the call: they
    work on a duplicate, which is released before they return. *)
Theorem snapshot_keeps_keysets F cp overrun ks options w :
  keysets (snd (ksToStream F cp ks options w)) = keysets w /\
  keysets (snd (ksOutput F overrun ks options w)) = keysets w.
Proof.
  split; [|apply keeps_ksOutput].
  destruct (ksToStream_writes F cp ks options w) as [n ->]. done.
Qed.

(** ** The header of the document *)

(** C2 as stated fails: with HEADER and XMLHEADERS both set the prolog and
    the schema attributes are written. *)
Lemma header_written_despite_XMLHEADERS :
  isset (2 ^ 18 + 2 ^ 21) (KDB_O_HEADER sample_flags) = true /\
  isset (2 ^ 18 + 2 ^ 21) (KDB_O_XMLHEADERS sample_flags) = true /\
  stream (snd (ksToStream sample_flags no_common_parent 7 (2 ^ 18 + 2 ^ 21)
                 empty_keyset_world))
  = xml_prolog ++ [LF] ++ lit "<!-- Generated by Elektra API. Total of 0 keys. -->"
      ++ [LF] ++ keyset_schema_lines ++ lit ">" ++ [LF] ++ lit "</keyset>" ++ [LF].
Proof. repeat split; vm_compute; reflexivity. Qed.

(** C2, as amended: the prolog and the schema attributes are written exactly
    when HEADER is set, whatever the other options are; XMLHEADERS is not
    consulted. *)
Theorem header_follows_HEADER F cp ks options w :
  (isset options (KDB_O_HEADER F) = true ->
   exists rest,
     stream (snd (ksToStream F cp ks options w))
     = stream w ++ xml_prolog
         ++ (if isset (Z.lnot options) (KDB_O_CONDENSED F) then
               [LF] ++ lit "<!-- Generated by Elektra API. Total of "
                 ++ decimal (to_int (Z.of_nat (length (ks_keys ks w))))
                 ++ lit " keys. -->" ++ [LF] ++ keyset_schema_lines
             else keyset_schema_condensed)
         ++ rest) /\
  (isset options (KDB_O_HEADER F) = false ->
   stream (snd (ksToStream F cp ks options w))
   = stream w ++ lit "<keyset"
       ++ keys_text F (cp (ks_keys ks w)) options (ks_keys ks w)
       ++ lit "</keyset>" ++ [LF]).
Proof.
  destruct (ksToStream_writes F cp ks options w) as [n ->].
  unfold ks_text, header_text. cbn [snd with_stream stream].
  split; intros ->.
  - exists (keys_text F (cp (ks_keys ks w)) options (ks_keys ks w)
              ++ lit "</keyset>" ++ [LF]).
    destruct (isset (Z.lnot options) (KDB_O_CONDENSED F)); text_eq.
  - reflexivity.
Qed.

Lemma header_follows_HEADER_witness :
  exists rest,
    stream (snd (ksToStream sample_flags no_common_parent 7 (2 ^ 18 + 2 ^ 16)
                   empty_keyset_world))
    = stream empty_keyset_world ++ xml_prolog ++ keyset_schema_condensed ++ rest.
Proof.
  apply (proj1 (header_follows_HEADER sample_flags no_common_parent 7
                  (2 ^ 18 + 2 ^ 16) empty_keyset_world)).
  vm_compute. reflexivity.
Defined.

(** ** Condensed output *)

Lemma elem_of_cstr c p : c ∈ cstr p -> c ∈ p.
Proof.
  induction p as [|x p IH]; simpl; [done|].
  destruct (decide (x = NUL)); [by intros ?%elem_of_nil|].
  intros [->|H]%elem_of_cons; [left | right; auto].
Qed.

Lemma elem_of_skip_separators c p : c ∈ skip_separators p -> c ∈ p.
Proof.
  induction p as [|x p IH]; simpl; [done|].
  destruct (decide (x = KDB_PATH_SEPARATOR)); [right; auto | done].
Qed.

Lemma elem_of_dropped {A} (c : A) n p : c ∈ drop n p -> c ∈ p.
Proof. intros H. rewrite <- (take_drop n p). apply elem_of_app. by right. Qed.

(** The element of a key in condensed mode. *)
Lemma condensed_element F k parent parentSize options :
  isset options (KDB_O_CONDENSED F) = true -> no_attribute_with_comment k ->
  exists n t, opening t /\
    writes (keyToStreamBasename F k parent parentSize options) n
      (t ++ condensed_body k).
Proof.
  intros Hc Hslip. apply writes_body. intros written.
  pose proof (writes_tail F k options) as Ht.
  unfold closing in Ht. rewrite Hc in Ht.
  unfold no_attribute_with_comment in Hslip.
  unfold write_value, condensed_body, value_fits_attribute, unless in *.
  rewrite Hc.
  destruct (data k) as [d|] eqn:Hd.
  - destruct ((dataSize k <=? 16) && keyIsString k && is_null (strchr d LF)) eqn:Hfit.
    + rewrite (Hslip eq_refl). cbn [negb is_null andb add_if]. eexists.
      eapply writes_eq; [writes_steps; cbn [fst snd]; writes_steps | reflexivity | text_eq].
    + destruct (keyIsString k), (keyComment k) as [c|];
        cbn [negb is_null andb add_if]; eexists;
        (eapply writes_eq;
         [writes_steps; cbn [fst snd]; apply Ht | reflexivity | text_eq]).
  - destruct (keyComment k) as [c|]; cbn [negb is_null andb add_if]; eexists.
    + eapply writes_eq; [writes_steps; cbn [fst snd]; apply Ht | reflexivity | text_eq].
    + eapply writes_eq; [writes_steps; cbn [fst snd]; writes_steps | reflexivity | text_eq].
Qed.

(** C3 as stated fails: in condensed mode [ksToStream] writes the newline
    after the opening tag of the root element and the one after its closing
    tag, as it does without the option. *)
Lemma condensed_keyset_has_newlines :
  isset (2 ^ 16) (KDB_O_CONDENSED sample_flags) = true /\
  stream (snd (ksToStream sample_flags no_common_parent 7 (2 ^ 16) empty_keyset_world))
  = lit "<keyset>" ++ [LF] ++ lit "</keyset>" ++ [LF] /\
  stream (snd (ksToStream sample_flags no_common_parent 7 0 empty_keyset_world))
  = lit "<keyset>" ++ [LF] ++ lit "</keyset>" ++ [LF].
Proof. repeat split; vm_compute; reflexivity. Qed.

(** C3, as amended: with CONDENSED set, [keyToStreamBasename] writes for a
    key that has not both a short value and a comment the opening tag, the
    value, the comment and the closing tag with no newline, no tab and no
    indentation between them; [ksToStream] writes the prolog and the root
    element with single spaces between its attributes, the elements of the
    keys with nothing between them, and keeps of the layout the eight
    spaces before the parent attribute, the newline after the opening tag
    of the root element and the one after its closing tag. *)
Theorem condensed_output_has_no_layout F options :
  isset options (KDB_O_CONDENSED F) = true ->
  (forall k parent parentSize,
     no_attribute_with_comment k ->
     exists n t, opening t /\
       writes (keyToStreamBasename F k parent parentSize options) n
         (t ++ condensed_body k)) /\
  (forall cp ks w,
     isset (Z.lnot options) (KDB_O_CONDENSED F) = false ->
     Forall no_attribute_with_comment (ks_keys ks w) ->
     exists elements,
       Forall2 (fun k e => exists t, opening t /\ e = t ++ condensed_body k)
         (ks_keys ks w) elements /\
       stream (snd (ksToStream F cp ks options w))
       = stream w ++ condensed_head F options (cp (ks_keys ks w))
           ++ lit ">" ++ [LF] ++ concat elements ++ lit "</keyset>" ++ [LF]).
Proof.
  intros Hc. split.
  - intros k parent parentSize Hslip. by apply condensed_element.
  - intros cp ks w Hnot Hkeys.
    destruct (ksToStream_writes F cp ks options w) as [n ->].
    cbn [snd with_stream stream]. unfold ks_text, header_text, keys_text, condensed_head.
    rewrite Hnot. set (l := ks_keys ks w) in *.
    assert (Helems : forall parent,
      Forall2 (fun k e => exists t, opening t /\ e = t ++ condensed_body k)
        l (key_text F options parent <$> l)).
    { intros parent. apply Forall2_fmap_r, Forall_Forall2_diag.
      eapply Forall_impl; [exact Hkeys|]. intros k Hslip.
      destruct (condensed_element F k parent 0 options Hc Hslip) as (m & t & Ho & Hw).
      destruct (writes_text_of _ (writer_keyToStreamBasename F k parent 0 options))
        as [a Ha].
      exists t. split; [done|]. unfold key_text.
      by destruct (writes_inj _ _ _ _ _ Ha Hw). }
    destruct (isset options (KDB_O_HIER F) && negb (bool_decide (deref (cp l) = NUL))).
    + exists (key_text F options (Some (cp l)) <$> l). split; [apply Helems|].
      destruct (isset options (KDB_O_HEADER F)); text_eq.
    + exists (key_text F options None <$> l). split; [apply Helems|].
      destruct (isset options (KDB_O_HEADER F)); text_eq.
Qed.

Lemma condensed_output_has_no_layout_witness :
  exists elements,
    Forall2 (fun k e => exists t, opening t /\ e = t ++ condensed_body k)
      (ks_keys 7 sample_world) elements /\
    stream (snd (ksToStream sample_flags user_parent 7 (2 ^ 16 + 2 ^ 20) sample_world))
    = stream sample_world
        ++ condensed_head sample_flags (2 ^ 16 + 2 ^ 20)
             (user_parent (ks_keys 7 sample_world))
        ++ lit ">" ++ [LF] ++ concat elements ++ lit "</keyset>" ++ [LF].
Proof.
  apply (proj2 (condensed_output_has_no_layout sample_flags (2 ^ 16 + 2 ^ 20) eq_refl)).
  - vm_compute. reflexivity.
  - change (ks_keys 7 sample_world)
      with [monitor_key; sixteen_bytes_key; fifteen_bytes_key].
    apply Forall_forall. intros k Hk.
    repeat (apply elem_of_cons in Hk as [->|Hk]); [..|by apply elem_of_nil in Hk];
      intros Hfit; vm_compute in Hfit |- *; congruence.
Defined.

(** ** Well-formed documents *)

Lemma scans_nil st : scans st [] st.
Proof. done. Qed.

Lemma scans_app st a st1 b st2 :
  scans st a st1 -> scans st1 b st2 -> scans st (a ++ b) st2.
Proof.
  unfold scans. revert st. induction a as [|c a IH]; intros st; simpl.
  - by intros [= ->].
  - destruct (xml_step st c); [apply IH | done].
Qed.

Lemma scans_attr_value e t a r v :
  attr_text v -> scans (mkXml AttrValue e t a r) v (mkXml AttrValue e t a r).
Proof.
  unfold attr_text, scans. induction v as [|c v IH]; simpl; [done|].
  intros [Hc Hv]%andb_prop. unfold xml_step. simpl mode.
  unfold attr_char in Hc.
  apply andb_prop in Hc as [[[Hx Hq]%andb_prop Hlt]%andb_prop Hamp].
  rewrite Hx. simpl negb. cbv iota.
  destruct (is_char c DQUOTE); [done|].
  destruct (is_char c "<"); [done|]. destruct (is_char c "&"); [done|].
  simpl. by apply IH.
Qed.

Lemma scans_quoted e t a r v :
  attr_text v ->
  scans (mkXml AttrQuote e t a r) (quoted v) (mkXml (Attrs false) e t a r).
Proof.
  intros Hv. unfold quoted.
  eapply (scans_app _ _ (mkXml AttrValue e t a r)); [by vm_compute|].
  eapply scans_app; [by apply scans_attr_value | by vm_compute].
Qed.

Lemma has_cdata_end_tail c t : has_cdata_end (c :: t) = false -> has_cdata_end t = false.
Proof.
  cbn [has_cdata_end]. by destruct (strip_prefix (lit "]]>") (c :: t)).
Qed.

Lemma has_cdata_end_drop n t : has_cdata_end t = false -> has_cdata_end (drop n t) = false.
Proof.
  revert t. induction n as [|n IH]; intros [|c t] H; simpl; try done.
  by eapply IH, has_cdata_end_tail.
Qed.

Lemma scans_cdata_payload e t a r p b :
  (b <= 2)%nat -> forallb xml_char p = true ->
  has_cdata_end (replicate b "]"%char ++ p) = false ->
  scans (mkXml (CData b) e t a r) p (mkXml (CData (cdata_brackets b p)) e t a r).
Proof.
  unfold scans. revert b. induction p as [|c p IH]; intros b Hb Hx Hend; [done|].
  simpl in Hx. apply andb_prop in Hx as [Hc Hp].
  cbn [xml_run cdata_brackets]. unfold xml_step. rewrite Hc.
  cbn [negb mode at_mode open_elements tag attributes root_seen].
  unfold is_char at 1 3. destruct (bool_decide (c = "]"%char)) eqn:Hbr.
  - apply bool_decide_eq_true in Hbr as ->. cbv iota.
    apply IH; [destruct b; lia | done |].
    destruct b as [|[|[|b]]]; [done|done| |lia].
    apply (has_cdata_end_tail _ _ Hend).
  - destruct (is_char c ">") eqn:Hgt.
    + apply bool_decide_eq_true in Hgt as ->.
      destruct b as [|[|[|b]]]; [| |by vm_compute in Hend|lia];
        cbv iota; cbn [at_mode open_elements tag attributes root_seen];
        (apply IH; [lia | done |]).
      * apply (has_cdata_end_tail _ _ Hend).
      * apply (has_cdata_end_drop 2 _ Hend).
    + assert (Hrest : has_cdata_end p = false).
      { apply (has_cdata_end_drop (S b)) in Hend.
        destruct b as [|[|[|b]]]; [by simpl in Hend..|lia]. }
      destruct b as [|[|[|b]]]; [..|lia]; cbv iota;
        cbn [at_mode open_elements tag attributes root_seen];
        (apply IH; [lia | done | done]).
Qed.

Lemma scans_cdata_close e t a r b :
  scans (mkXml (CData b) e t a r) (lit "]]>") (mkXml Text e t a r).
Proof. by destruct b as [|[|b]]. Qed.

(** A CDATA section from its first byte on. *)
Lemma scans_cdata e t a r p rest st' :
  cdata_text p ->
  scans (mkXml Text e t a r) rest st' ->
  scans (mkXml (CData 0) e t a r) (p ++ lit "]]>" ++ rest) st'.
Proof.
  intros [Hx Hend] Hrest.
  eapply scans_app; [apply scans_cdata_payload; [lia | done | done]|].
  eapply scans_app; [apply scans_cdata_close | done].
Qed.

Lemma scans_digits e t a r ds :
  forallb digit ds = true ->
  forall d, (d <= 1)%nat ->
  scans (mkXml (Comment d) e t a r) ds
    (mkXml (Comment (if is_nil ds then d else 0%nat)) e t a r).
Proof.
  unfold scans. induction ds as [|c ds IH]; intros Hds d Hd; [done|].
  simpl in Hds. apply andb_prop in Hds as [Hc Hds].
  assert (xml_char c = true /\ is_char c "-" = false /\ is_char c ">" = false)
    as (Hx & Hdash & Hgt).
  { unfold digit in Hc. apply andb_prop in Hc as [H1%Nat.leb_le H2%Nat.leb_le].
    unfold xml_char, is_char.
    repeat split.
    - apply orb_true_iff. right. apply Nat.leb_le. lia.
    - apply bool_decide_eq_false. intros ->. vm_compute in H1. lia.
    - apply bool_decide_eq_false. intros ->. vm_compute in H2. lia. }
  cbn [xml_run is_nil]. unfold xml_step. rewrite Hx.
  cbn [negb mode at_mode open_elements tag attributes root_seen].
  rewrite Hdash, Hgt.
  destruct d as [|[|d]]; [| |lia]; cbv iota;
    unfold at_mode; cbn [open_elements tag attributes root_seen];
    rewrite (IH Hds 0%nat) by lia; by destruct ds.
Qed.

Lemma uint_digits d : forallb digit (lit (NilEmpty.string_of_uint d)) = true.
Proof. induction d; simpl; [done | by rewrite IHd..]. Qed.

Lemma decimal_digits z :
  exists ds, ds ≠ [] /\ forallb digit ds = true /\
             (decimal z = ds \/ decimal z = "-"%char :: ds).
Proof.
  unfold decimal. set (i := Z.to_int z). clearbody i.
  assert (Hu : forall d, NilZero.string_of_uint d ≠ EmptyString /\
                         forallb digit (lit (NilZero.string_of_uint d)) = true).
  { intros d. split; [by destruct d|].
    destruct d; [done | apply (uint_digits (_ _))..]. }
  destruct i as [d|d]; destruct (Hu d) as [Hne Hd];
    exists (lit (NilZero.string_of_uint d));
    (split; [by destruct (NilZero.string_of_uint d)|]); (split; [done|]);
    [by left | by right].
Qed.

Lemma scans_decimal e t a r z :
  scans (mkXml (Comment 0) e t a r) (decimal z) (mkXml (Comment 0) e t a r).
Proof.
  destruct (decimal_digits z) as (ds & Hne & Hds & [-> | ->]).
  - pose proof (scans_digits e t a r ds Hds 0%nat) as H.
    destruct ds; [done|]. apply H. lia.
  - pose proof (scans_digits e t a r ds Hds 1%nat) as H.
    destruct ds; [done|]. change ("-"%char :: a0 :: ds) with (["-"%char] ++ a0 :: ds).
    eapply scans_app; [by vm_compute | apply H; lia].
Qed.

Lemma scan_ret {A} st (a : A) : scan_writes st (ret a) a st.
Proof. exists []. split; [apply writes_ret | done]. Qed.

Lemma scan_bind {A B} st (m : M A) (f : A -> M B) a st1 b st2 :
  scan_writes st m a st1 -> scan_writes st1 (f a) b st2 ->
  scan_writes st (bind m f) b st2.
Proof.
  intros (t & Hm & Ht) (u & Hf & Hu). exists (t ++ u).
  split; [by eapply writes_bind | by eapply scans_app].
Qed.

Lemma scan_fprintf st written s st' :
  scans st s st' ->
  scan_writes st (add written (fprintf s)) (written + Z.of_nat (length s)) st'.
Proof. intros Hs. exists s. split; [apply writes_add, writes_fprintf | done]. Qed.

Lemma scan_fwrite st written p n st' :
  scans st (takeZ n p) st' ->
  scan_writes st (add written (fwrite p n)) (written + n) st'.
Proof. intros Hs. eexists. split; [apply writes_add, writes_fwrite | done]. Qed.

Lemma attr_text_sublist a b : (forall c, c ∈ a -> c ∈ b) -> attr_text b -> attr_text a.
Proof.
  unfold attr_text. rewrite !forallb_forall. intros Hsub Hb c Hc.
  apply Hb. apply list_elem_of_In, Hsub. by apply list_elem_of_In.
Qed.

(** The opening tag of a key leaves the scan in the start tag, after the
    attribute basename or name. *)
Lemma scan_opening F k parent parentSize options :
  clean_key k ->
  exists n attribute,
    (attribute = lit "basename" \/ attribute = lit "name") /\
    scan_writes in_keyset (write_opening F k parent parentSize options) n
      (in_key_tag attribute).
Proof.
  intros ([Hkey _] & [Hname _] & _).
  assert (Hn : exists n, scan_writes in_keyset (write_name F k options 0) n
                           (in_key_tag (lit "name"))).
  { unfold write_name. change (0 =? 0) with true. cbv iota.
    destruct (isset options (KDB_O_FULLNAME F)); eexists; apply scan_fprintf;
      (eapply scans_app; [by vm_compute|]); apply scans_quoted; [done|].
    revert Hkey. apply attr_text_sublist. intros c. apply elem_of_cstr. }
  assert (Hskip : exists n attribute,
            (attribute = lit "basename" \/ attribute = lit "name") /\
            scan_writes in_keyset (written <- ret 0 ;; write_name F k options written)
              n (in_key_tag attribute)).
  { destruct Hn as [n Hn]. exists n, (lit "name"). split; [by right|].
    eapply scan_bind; [apply scan_ret | exact Hn]. }
  unfold write_opening, write_basename.
  destruct parent as [p|]; [|done].
  destruct (memcmp _ _ _ =? 0); [|done].
  destruct (decide (deref _ = NUL)) as [|Hne]; [done|].
  eexists _, (lit "basename"). split; [by left|].
  eapply scan_bind.
  - apply scan_fprintf. eapply scans_app; [by vm_compute|]. apply scans_quoted.
    revert Hkey. apply attr_text_sublist.
    by intros c Hc%elem_of_cstr%elem_of_skip_separators%elem_of_dropped.
  - unfold write_name.
    match goal with |- context [?x =? 0] =>
      replace (x =? 0) with false by (symmetry; apply Z.eqb_neq; rewrite length_app; simpl; lia)
    end.
    apply scan_ret.
Qed.

Ltac scan_text :=
  repeat match goal with
    | |- scans _ (quoted _) _ => apply scans_quoted
    | |- scans _ (cstr _ ++ lit "]]></comment>") _ =>
        change (lit "]]></comment>") with (lit "]]>" ++ lit "</comment>");
        apply scans_cdata
    | |- scans _ (takeZ _ _) _ => apply scans_cdata_payload; [lia| |]
    | |- scans (mkXml (CData _) _ _ _ _) (lit "]]>") _ => apply scans_cdata_close
    | |- scans _ (_ ++ _) _ => eapply scans_app
    | |- scans _ (lit _) _ => vm_compute; reflexivity
    | |- scans _ (_ :: _) _ => vm_compute; reflexivity
    end.

Ltac scan_steps :=
  repeat match goal with
    | |- scan_writes _ (ret _) _ _ => apply scan_ret
    | |- scan_writes _ (bind _ _) _ _ => eapply scan_bind
    | |- scan_writes _ (add _ (fprintf _)) _ _ => eapply scan_fprintf; scan_text
    | |- scan_writes _ (add _ (fwrite _ _)) _ _ => eapply scan_fwrite; scan_text
    | |- scan_writes _ (add_if _ _ _) _ _ => unfold add_if
    | |- scan_writes _ (write_tail _ _ _ _) _ _ => unfold write_tail
    | |- scan_writes _ _ _ _ => progress cbn beta iota delta [negb is_null andb fst snd]
    end.

Lemma scan_value F k options attribute written :
  clean_key k -> attribute = lit "basename" \/ attribute = lit "name" ->
  exists n,
    scan_writes (in_key_tag attribute)
      (r <- write_value F k options written ;;
       if fst r then write_tail F k options (snd r) else ret (snd r))
      n in_keyset.
Proof.
  intros (_ & _ & Hdata & Hcomment) Hattr.
  assert (Hcc : forall c, keyComment k = Some c -> cdata_text (cstr c))
    by (intros c Hc; apply (Hcomment c Hc)).
  unfold write_value, write_tail. unfold value_fits_attribute in *.
  destruct (data k) as [d|] eqn:Hd.
  - specialize (Hdata d eq_refl).
    destruct ((dataSize k <=? 16) && keyIsString k && is_null (strchr d LF)) eqn:Htest;
      [destruct Hdata as [Hfit _]
      |destruct (keyIsString k) eqn:Hstr;
       [destruct (Hdata eq_refl) as [[Hx Hend] _]|]];
      destruct (isset options (KDB_O_CONDENSED F)) eqn:Hcond;
      destruct (keyComment k) as [c|] eqn:Hc;
      try pose proof (Hcc c eq_refl) as Hcs;
      destruct Hattr as [-> | ->];
      eexists; scan_steps;
      done.
  - destruct (isset options (KDB_O_CONDENSED F)) eqn:Hcond;
      destruct (keyComment k) as [c|] eqn:Hc;
      try pose proof (Hcc c eq_refl) as Hcs;
      destruct Hattr as [-> | ->];
      eexists; scan_steps; done.
Qed.

(** The element of a clean key is well-formed content of the root element. *)
Lemma scan_key F k parent parentSize options :
  clean_key k ->
  exists n, scan_writes in_keyset (keyToStreamBasename F k parent parentSize options)
              n in_keyset.
Proof.
  intros Hk.
  destruct (scan_opening F k parent parentSize options Hk) as (n0 & attr & Hattr & Ho).
  destruct (scan_value F k options attr n0 Hk Hattr) as [n Hn].
  exists n. unfold keyToStreamBasename. by eapply scan_bind.
Qed.

Lemma scans_keys F options parent l :
  Forall clean_key l ->
  scans in_keyset (concat (key_text F options parent <$> l)) in_keyset.
Proof.
  induction 1 as [|k l Hk _ IH]; [done|]. cbn [fmap list_fmap concat].
  eapply scans_app; [|exact IH].
  destruct (scan_key F k parent 0 options Hk) as (n & t & Ht & Hs).
  destruct (writes_text_of _ (writer_keyToStreamBasename F k parent 0 options)) as [a Ha].
  unfold key_text. by destruct (writes_inj _ _ _ _ _ Ht Ha) as [_ <-].
Qed.

Lemma strip_prefix_app p t : strip_prefix p (p ++ t) = Some t.
Proof.
  induction p as [|c p IH]; simpl; [by destruct t|].
  by destruct (decide (c = c)).
Qed.

Ltac scan_document :=
  repeat match goal with
    | |- scans _ (quoted _) _ => apply scans_quoted
    | |- scans _ (decimal _) _ => apply scans_decimal
    | |- scans _ (concat _) _ => apply scans_keys
    | |- scans _ (_ ++ _) _ => eapply scans_app
    | |- scans _ _ _ => vm_compute; reflexivity
    end.

(** The scan of the document of clean keys ends well. *)
Lemma ks_text_scans F cp options l :
  Forall clean_key l ->
  (isset options (KDB_O_HIER F) = true -> attr_text (cstr (cp l))) ->
  xml_final (xml_run xml_start
               (default (ks_text F cp options l)
                  (strip_prefix xml_prolog (ks_text F cp options l)))) = true.
Proof.
  intros Hl Hcp. unfold ks_text, header_text, keys_text.
  destruct (isset options (KDB_O_HEADER F)).
  - rewrite <- !app_assoc, strip_prefix_app. cbn [default from_option]. unfold id.
    match goal with |- xml_final (xml_run _ ?t) = true =>
      assert (scans xml_start t (mkXml Text [] [] [] true)) as ->; [|done]
    end.
    destruct (isset (Z.lnot options) (KDB_O_CONDENSED F));
      (destruct (isset options (KDB_O_HIER F));
       [specialize (Hcp eq_refl)|]; cbn [andb];
       [destruct (negb (bool_decide (deref (cp l) = NUL)))|]);
      scan_document; done.
  - replace (strip_prefix xml_prolog _) with (@None (list ascii))
      by (by destruct (_ && _)).
    cbn [default from_option].
    match goal with |- xml_final (xml_run _ ?t) = true =>
      assert (scans xml_start t (mkXml Text [] [] [] true)) as ->; [|done]
    end.
    destruct (isset options (KDB_O_HIER F));
      [specialize (Hcp eq_refl)|]; cbn [andb];
      [destruct (negb (bool_decide (deref (cp l) = NUL)))|];
      scan_document; done.
Qed.

(** ** The encoding of the document *)

Lemma utf8_run_app p a b :
  utf8_run p (a ++ b)
  = match utf8_run p a with
    | Some q => utf8_run q b
    | None => None
    end.
Proof.
  revert p. induction a as [|c a IH]; intros p; simpl; [done|].
  destruct (utf8_step p c); [apply IH | done].
Qed.

Lemma utf8_complete t : utf8 t = true <-> utf8_run [] t = Some [].
Proof.
  unfold utf8. destruct (utf8_run [] t) as [[|]|]; split; done.
Qed.

Lemma utf8_app a b : utf8 a = true -> utf8 b = true -> utf8 (a ++ b) = true.
Proof.
  rewrite !utf8_complete, utf8_run_app. by intros ->.
Qed.

Lemma utf8_cancel a b : utf8 a = true -> utf8 (a ++ b) = true -> utf8 b = true.
Proof.
  rewrite !utf8_complete, utf8_run_app. by intros ->.
Qed.

Lemma utf8_concat ts : Forall (fun t => utf8 t = true) ts -> utf8 (concat ts) = true.
Proof.
  induction 1 as [|t ts Ht _ IH]; simpl; [done | by apply utf8_app].
Qed.

Lemma utf8_digits ds : forallb digit ds = true -> utf8 ds = true.
Proof.
  intros Hds. apply utf8_complete.
  induction ds as [|c ds IH]; [done|].
  simpl in Hds. apply andb_prop in Hds as [Hc Hds]. simpl.
  unfold digit in Hc. apply andb_prop in Hc as [_ Hc%Nat.leb_le].
  replace (code c <? 128)%nat with true by (symmetry; apply Nat.ltb_lt; lia).
  by apply IH.
Qed.

Lemma utf8_decimal z : utf8 (decimal z) = true.
Proof.
  destruct (decimal_digits z) as (ds & _ & Hds & [-> | ->]).
  - by apply utf8_digits.
  - apply (utf8_app ["-"%char]); [done | by apply utf8_digits].
Qed.

Lemma utf8_quoted t : utf8 t = true -> utf8 (quoted t) = true.
Proof.
  intros Ht. unfold quoted. apply utf8_app; [done|]. by apply utf8_app.
Qed.

Lemma utf8_skip_separators t : utf8 t = true -> utf8 (skip_separators t) = true.
Proof.
  induction t as [|c t IH]; simpl; [done|].
  destruct (decide (c = KDB_PATH_SEPARATOR)) as [->|]; [|done].
  intros Ht. apply IH. by apply (utf8_cancel [KDB_PATH_SEPARATOR]).
Qed.

Lemma attr_text_no_NUL t : attr_text t -> NUL ∉ t.
Proof.
  unfold attr_text. rewrite forallb_forall. intros Ht Hnul.
  apply list_elem_of_In, Ht in Hnul. done.
Qed.

Lemma nat_of_ascii_diff a b :
  a ≠ b -> Z.of_nat (nat_of_ascii a) - Z.of_nat (nat_of_ascii b) ≠ 0.
Proof.
  intros Hab H. apply Hab.
  rewrite <- (ascii_nat_embedding a), <- (ascii_nat_embedding b).
  f_equal. lia.
Qed.

(** [memcmp] over the length of the parent is zero only if the key name
    starts with the parent. *)
Lemma memcmp_zero_prefix p k : memcmp p k (strlen p) = 0 -> cstr p `prefix_of` k.
Proof.
  unfold strlen. revert k. induction p as [|c p IH]; intros k; simpl.
  - intros _. apply prefix_nil.
  - destruct (decide (c = NUL)) as [->|Hc]; simpl; [intros _; apply prefix_nil|].
    unfold deref at 1 2. simpl hd.
    destruct (decide (c = hd NUL k)) as [Heq|Hne].
    + destruct k as [|x k]; simpl in *; [done|]. subst x.
      intros H. by apply prefix_cons, IH.
    + intros H. by apply nat_of_ascii_diff in H.
Qed.

Lemma valid_writer_ret {A} (a : A) : valid_writer (ret a).
Proof. exists a, []. split; [apply writes_ret | done]. Qed.

Lemma valid_writer_bind {A B} (m : M A) (f : A -> M B) :
  valid_writer m -> (forall a, valid_writer (f a)) -> valid_writer (bind m f).
Proof.
  intros (a & t & Hm & Ht) Hf. destruct (Hf a) as (b & u & Hb & Hu).
  exists b, (t ++ u). split; [by eapply writes_bind | by apply utf8_app].
Qed.

Lemma valid_writer_add written s :
  utf8 s = true -> valid_writer (add written (fprintf s)).
Proof. intros Hs. eexists _, s. split; [apply writes_add, writes_fprintf | done]. Qed.

Lemma valid_writer_fwrite written p n :
  utf8 (takeZ n p) = true -> valid_writer (add written (fwrite p n)).
Proof. intros Hp. eexists _, _. split; [apply writes_add, writes_fwrite | done]. Qed.

Lemma valid_writer_text {A} (m : M A) a t :
  valid_writer m -> writes m a t -> utf8 t = true.
Proof.
  intros (a' & t' & Hm & Ht) Hw. by destruct (writes_inj _ _ _ _ _ Hm Hw) as [_ <-].
Qed.

Ltac utf8_text :=
  repeat match goal with
    | |- utf8 (quoted _) = true => apply utf8_quoted
    | |- utf8 (decimal _) = true => apply utf8_decimal
    | |- utf8 (_ ++ _) = true => apply utf8_app
    | |- utf8 _ = true => first [assumption | reflexivity]
    end.

Ltac valid_steps :=
  repeat match goal with
    | |- valid_writer (ret _) => apply valid_writer_ret
    | |- valid_writer (bind _ _) => apply valid_writer_bind; [|intros ?]
    | |- valid_writer (add_if false _ _) => apply valid_writer_ret
    | |- valid_writer (add_if true _ _) => unfold add_if
    | |- valid_writer (add _ (fprintf _)) => apply valid_writer_add; utf8_text
    | |- valid_writer (add _ (fwrite _ _)) => apply valid_writer_fwrite
    | |- valid_writer _ => progress cbn beta iota delta [negb is_null andb fst snd]
    end.

Lemma initial_skip_0 p : initial_skip p 0 = strlen p.
Proof. unfold initial_skip, elektraStrLen. simpl. lia. Qed.

(** The opening tag of a clean key, for a parent that is compared in full
    and is a text of encoded characters. *)
Lemma valid_opening F k parent options :
  clean_key k -> (forall p, parent = Some p -> utf8 (cstr p) = true) ->
  valid_writer (write_opening F k parent 0 options).
Proof.
  intros ([Hkey Hkey8] & [_ Hname8] & _) Hparent.
  assert (Hcstr : cstr (key k) = key k) by (by apply cstr_no_NUL, attr_text_no_NUL).
  assert (Hn : forall written, valid_writer (write_name F k options written)).
  { intros written. unfold write_name.
    destruct (written =? 0); [|apply valid_writer_ret].
    destruct (isset options (KDB_O_FULLNAME F)); apply valid_writer_add;
      rewrite ?Hcstr; utf8_text. }
  unfold write_opening. apply valid_writer_bind; [|apply Hn].
  unfold write_basename. destruct parent as [p|]; [|apply valid_writer_ret].
  destruct (_ =? 0) eqn:Hcmp; [|apply valid_writer_ret].
  destruct (decide _); [apply valid_writer_ret|].
  apply valid_writer_add.
  apply Z.eqb_eq in Hcmp. rewrite initial_skip_0 in *.
  destruct (memcmp_zero_prefix _ _ Hcmp) as [rest Hrest].
  assert (Hdrop : drop (strlen p) (key k) = rest).
  { rewrite Hrest. unfold strlen. by rewrite drop_app_length. }
  rewrite Hdrop.
  assert (Hrest8 : utf8 rest = true).
  { apply (utf8_cancel (cstr p)); [by apply Hparent | by rewrite <- Hrest]. }
  assert (Hskip : cstr (skip_separators rest) = skip_separators rest).
  { apply cstr_no_NUL. intros Hnul%elem_of_skip_separators.
    apply (attr_text_no_NUL _ Hkey). rewrite Hrest. apply elem_of_app. by right. }
  rewrite Hskip. apply utf8_app; [reflexivity|].
  by apply utf8_quoted, utf8_skip_separators.
Qed.

Lemma valid_tail F k options written :
  clean_key k -> valid_writer (write_tail F k options written).
Proof.
  intros (_ & _ & _ & Hcomment). unfold write_tail.
  destruct (isset options (KDB_O_CONDENSED F));
    destruct (keyComment k) as [c|] eqn:Hc;
    try (destruct (Hcomment c eq_refl) as [_ Hc8]);
    valid_steps.
Qed.

Lemma valid_value F k options written :
  clean_key k ->
  valid_writer (r <- write_value F k options written ;;
                if fst r then write_tail F k options (snd r) else ret (snd r)).
Proof.
  intros Hk.
  assert (Htail : forall n, valid_writer (write_tail F k options n))
    by (intros n; by apply valid_tail).
  destruct Hk as (_ & _ & Hdata & _).
  apply valid_writer_bind.
  2:{ intros [[] n]; cbn [fst snd]; [apply Htail | apply valid_writer_ret]. }
  unfold write_value. unfold value_fits_attribute in Hdata.
  destruct (data k) as [d|] eqn:Hd.
  - specialize (Hdata d eq_refl).
    destruct ((dataSize k <=? 16) && keyIsString k && is_null (strchr d LF)) eqn:Htest;
      [destruct Hdata as [_ Hd8]
      |destruct (keyIsString k) eqn:Hstr;
       [destruct (Hdata eq_refl) as [_ Hd8]|]];
      destruct (isset options (KDB_O_CONDENSED F));
      destruct (keyComment k) as [c|];
      valid_steps; done.
  - destruct (isset options (KDB_O_CONDENSED F));
      destruct (keyComment k) as [c|];
      valid_steps.
Qed.

Lemma valid_key_text F options parent k :
  clean_key k -> (forall p, parent = Some p -> utf8 (cstr p) = true) ->
  utf8 (key_text F options parent k) = true.
Proof.
  intros Hk Hparent.
  destruct (writes_text_of _ (writer_keyToStreamBasename F k parent 0 options)) as [a Ha].
  eapply valid_writer_text; [|exact Ha].
  unfold keyToStreamBasename.
  apply valid_writer_bind; [by apply valid_opening|]. intros written.
  by apply valid_value.
Qed.

(** The document of clean keys is a text of encoded characters. *)
Lemma ks_text_encoded F cp options l :
  Forall clean_key l ->
  (isset options (KDB_O_HIER F) = true -> utf8 (cstr (cp l)) = true) ->
  utf8 (ks_text F cp options l) = true.
Proof.
  intros Hl Hcp. unfold ks_text, header_text, keys_text.
  assert (Hkeys : forall parent,
            (forall p, parent = Some p -> utf8 (cstr p) = true) ->
            utf8 (concat (key_text F options parent <$> l)) = true).
  { intros parent Hparent. apply utf8_concat, Forall_fmap.
    eapply Forall_impl; [exact Hl|]. intros k Hk. by apply valid_key_text. }
  apply utf8_app; [|apply utf8_app; [|reflexivity]].
  - destruct (isset options (KDB_O_HEADER F)); [|reflexivity].
    destruct (isset (Z.lnot options) (KDB_O_CONDENSED F)); utf8_text.
  - destruct (isset options (KDB_O_HIER F));
      [specialize (Hcp eq_refl)|]; cbn [andb];
      [destruct (negb (bool_decide (deref (cp l) = NUL)))|].
    + utf8_text. apply Hkeys. by intros p [= <-].
    + utf8_text. by apply Hkeys.
    + utf8_text. by apply Hkeys.
Qed.

(** The document of clean keys is well-formed, whatever the options are. *)
Lemma ks_text_well_formed F cp options l :
  Forall clean_key l ->
  (isset options (KDB_O_HIER F) = true -> attribute_value (cstr (cp l))) ->
  well_formed (ks_text F cp options l) = true.
Proof.
  intros Hl Hcp. unfold well_formed. apply andb_true_intro. split.
  - apply ks_text_encoded; [done|]. intros Hh. apply (Hcp Hh).
  - apply ks_text_scans; [done|]. intros Hh. apply (Hcp Hh).
Qed.

(** C4 as stated fails: nothing is escaped, and a key with a double quote
    in its name gives a document that is not well-formed. *)
Lemma quote_in_name_breaks_document :
  stream (snd (ksToStream sample_flags no_common_parent 7 (2 ^ 20) quote_world))
  = lit "<keyset>" ++ [LF] ++ lit "<key name=" ++ [DQUOTE] ++ lit "user:/a"
      ++ [DQUOTE] ++ lit "b" ++ [DQUOTE] ++ lit "/>" ++ [LF; LF]
      ++ lit "</keyset>" ++ [LF] /\
  well_formed
    (stream (snd (ksToStream sample_flags no_common_parent 7 (2 ^ 20) quote_world)))
  = false.
Proof. split; vm_compute; reflexivity. Qed.

(** C4, as amended: for every option combination the output of [ksToStream]
    is a well-formed document with the single root element keyset, provided
    the texts are encoded characters that can stand unescaped where they
    are written: the names of the keys, the values written as attributes
    and, with HIER set, the common parent without double quote, [<] and
    [&]; the string values written as elements and the comments without
    the end mark of a CDATA section. For an empty key set without common
    parent, with HIER set and HEADER unset, it is the root element alone,
    without attribute and without children. *)
Theorem keyset_document_well_formed F cp ks options w :
  (Forall clean_key (ks_keys ks w) ->
   (isset options (KDB_O_HIER F) = true ->
    attribute_value (cstr (cp (ks_keys ks w)))) ->
   exists t,
     stream (snd (ksToStream F cp ks options w)) = stream w ++ t /\
     well_formed t = true) /\
  (ks_keys ks w = [] -> cp [] = [] ->
   isset options (KDB_O_HIER F) = true -> isset options (KDB_O_HEADER F) = false ->
   stream (snd (ksToStream F cp ks options w))
   = stream w ++ lit "<keyset>" ++ [LF] ++ lit "</keyset>" ++ [LF]).
Proof.
  destruct (ksToStream_writes F cp ks options w) as [n ->].
  cbn [snd with_stream stream]. split.
  - intros Hkeys Hcp. eexists. split; [reflexivity|]. by apply ks_text_well_formed.
  - intros -> Hnone Hhier Hheader.
    unfold ks_text, header_text, keys_text. rewrite Hheader, Hhier, Hnone.
    reflexivity.
Qed.

Lemma keyset_document_well_formed_witness :
  (exists t,
     stream (snd (ksToStream sample_flags user_parent 7 (2 ^ 18 + 2 ^ 20) umlaut_world))
     = stream umlaut_world ++ t /\ well_formed t = true) /\
  stream (snd (ksToStream sample_flags no_common_parent 7 (2 ^ 20) empty_keyset_world))
  = stream empty_keyset_world ++ lit "<keyset>" ++ [LF] ++ lit "</keyset>" ++ [LF].
Proof.
  split.
  - apply (proj1 (keyset_document_well_formed sample_flags user_parent 7
                    (2 ^ 18 + 2 ^ 20) umlaut_world)).
    + change (ks_keys 7 umlaut_world)
        with [monitor_key; umlaut_key; fifteen_bytes_key].
      apply Forall_forall. intros k Hk.
      repeat (apply elem_of_cons in Hk as [->|Hk]); [..|by apply elem_of_nil in Hk];
        (refine (conj _ (conj _ (conj _ _)));
         [ split; vm_compute; reflexivity
         | split; vm_compute; reflexivity
         | intros ? [= <-]; vm_compute; repeat split
         | intros ? Hx; vm_compute in Hx;
           first [discriminate Hx
                 | injection Hx as <-; vm_compute; repeat split] ]).
    + intros _. split; vm_compute; reflexivity.
  - apply (proj2 (keyset_document_well_formed sample_flags no_common_parent 7
                    (2 ^ 20) empty_keyset_world)); vm_compute; reflexivity.
Defined.

(** * Further properties of the writers *)

(** ** The forms of a key element *)

(** When no basename is written, the element starts with the name of the
    key, resolved when FULLNAME is set. *)
Lemma name_form F k parent parentSize options :
  write_basename k parent parentSize 0 = ret 0 ->
  exists n rest,
    writes (keyToStreamBasename F k parent parentSize options) n
      (lit "<key name="
         ++ quoted (cstr (if isset options (KDB_O_FULLNAME F) then keyGetName k
                          else key k))
         ++ rest).
Proof.
  intros Hnone.
  destruct (writes_keyToStreamBasename F k parent parentSize options)
    as (n0 & n & t & rest & _ & Hw & Hk).
  exists n, rest.
  eapply writes_eq; [exact Hk | reflexivity |].
  rewrite app_assoc. f_equal.
  assert (exists m, writes (write_opening F k parent parentSize options) m
            (lit "<key name="
               ++ quoted (cstr (if isset options (KDB_O_FULLNAME F) then keyGetName k
                                else key k)))) as [m Hm].
  { unfold write_opening. rewrite Hnone.
    destruct (isset options (KDB_O_FULLNAME F)) eqn:Hfull; eexists;
      (eapply writes_eq;
       [ eapply writes_bind; [apply writes_ret|];
         unfold write_name; rewrite Hfull; change (0 =? 0) with true; cbv iota;
         writes_steps
       | reflexivity
       | text_eq ]). }
  by destruct (writes_inj _ _ _ _ _ Hw Hm).
Qed.

(** [keyToStream] never writes a basename: the element starts with the name
    of the key, resolved when FULLNAME is set. *)
Theorem keyToStream_writes_name F k options :
  exists n rest,
    writes (keyToStream F k options) n
      (lit "<key name="
         ++ quoted (cstr (if isset options (KDB_O_FULLNAME F) then keyGetName k
                          else key k))
         ++ rest).
Proof. by apply name_form. Qed.

(** A key without value and without comment is written as an empty element,
    followed by a blank line unless CONDENSED is set. *)
Theorem bare_key_is_self_closed F k parent parentSize options :
  data k = None -> keyComment k = None ->
  exists n t, opening t /\
    writes (keyToStreamBasename F k parent parentSize options) n
      (t ++ lit "/>" ++ unless (isset options (KDB_O_CONDENSED F)) [LF; LF]).
Proof.
  intros Hd Hc. apply writes_body. intros written.
  unfold write_value, unless. rewrite Hd, Hc.
  destruct (isset options (KDB_O_CONDENSED F));
    cbn [negb is_null andb add_if]; eexists;
    (eapply writes_eq; [writes_steps; cbn [fst snd]; writes_steps | reflexivity | text_eq]).
Qed.

Lemma bare_key_is_self_closed_witness :
  exists n t, opening t /\
    writes (keyToStreamBasename sample_flags bare_key None 0 0) n
      (t ++ lit "/>" ++ [LF; LF]).
Proof.
  apply (bare_key_is_self_closed sample_flags bare_key None 0 0); reflexivity.
Defined.

(** A value that is not of string kind is written as an empty value
    element: none of its bytes reaches the output. *)
Theorem non_string_value_is_dropped F k d parent parentSize options :
  data k = Some d -> keyIsString k = false ->
  exists n t, opening t /\
    writes (keyToStreamBasename F k parent parentSize options) n
      (t ++ lit ">"
         ++ unless (isset options (KDB_O_CONDENSED F)) ([LF; LF] ++ lit "     ")
         ++ lit "<value></value>"
         ++ closing F options (keyComment k)).
Proof.
  intros Hd Hstr. apply writes_body. intros written.
  pose proof (writes_tail F k options) as Ht.
  unfold write_value, unless. rewrite Hd, Hstr, andb_false_r.
  destruct (isset options (KDB_O_CONDENSED F));
    cbn [negb is_null andb add_if]; eexists;
    (eapply writes_eq;
     [writes_steps; cbn [fst snd]; apply Ht | reflexivity | text_eq]).
Qed.

Lemma non_string_value_is_dropped_witness :
  exists n t, opening t /\
    writes (keyToStreamBasename sample_flags binary_key None 0 (2 ^ 16)) n
      (t ++ lit ">" ++ lit "<value></value>" ++ lit "</key>").
Proof.
  apply (non_string_value_is_dropped sample_flags binary_key (lit "xyz" ++ [NUL])
           None 0 (2 ^ 16)); reflexivity.
Defined.

(** A key with a comment and without value gets the comment as its only
    child. *)
Theorem comment_without_value F k c parent parentSize options :
  data k = None -> keyComment k = Some c ->
  exists n t, opening t /\
    writes (keyToStreamBasename F k parent parentSize options) n
      (t ++ lit ">" ++ unless (isset options (KDB_O_CONDENSED F)) [LF]
         ++ closing F options (Some c)).
Proof.
  intros Hd Hc. apply writes_body. intros written.
  pose proof (writes_tail F k options) as Ht. rewrite Hc in Ht.
  unfold write_value, unless. rewrite Hd, Hc.
  destruct (isset options (KDB_O_CONDENSED F));
    cbn [negb is_null andb add_if]; eexists;
    (eapply writes_eq;
     [writes_steps; cbn [fst snd]; apply Ht | reflexivity | text_eq]).
Qed.

Lemma comment_without_value_witness :
  exists n t, opening t /\
    writes (keyToStreamBasename sample_flags comment_only_key None 0 (2 ^ 16)) n
      (t ++ lit ">" ++ lit "<comment><![CDATA[just a note]]></comment>"
         ++ lit "</key>").
Proof.
  apply (comment_without_value sample_flags comment_only_key (lit "just a note")
           None 0 (2 ^ 16)); reflexivity.
Defined.

(** ** Stripping the parent *)

Lemma memcmp_take p x n :
  (n <= length p)%nat -> memcmp p (take n p ++ x) n = 0.
Proof.
  revert p. induction n as [|n IH]; intros [|c p] Hn; simpl in *; try done; [lia|].
  destruct (decide (c = c)); [|done]. apply IH. lia.
Qed.

Lemma skip_separators_run j rest :
  deref rest ≠ KDB_PATH_SEPARATOR ->
  skip_separators (replicate j KDB_PATH_SEPARATOR ++ rest) = rest.
Proof.
  intros Hrest. induction j as [|j IH]; simpl.
  - destruct rest as [|c rest]; simpl in *; [done|].
    by destruct (decide (c = KDB_PATH_SEPARATOR)).
  - by destruct (decide (KDB_PATH_SEPARATOR = KDB_PATH_SEPARATOR)).
Qed.

(** When the key name is the compared bytes of the parent, then path
    separators, then a remainder that is not empty, the element starts with
    the remainder as basename: the parent and the separators are stripped,
    whether or not the parent ends at a path boundary. *)
Theorem basename_strips_parent F k p parentSize j rest options :
  (initial_skip p parentSize <= length p)%nat ->
  key k = take (initial_skip p parentSize) p
            ++ replicate j KDB_PATH_SEPARATOR ++ rest ->
  deref rest ≠ NUL -> deref rest ≠ KDB_PATH_SEPARATOR ->
  exists n tail,
    writes (keyToStreamBasename F k (Some p) parentSize options) n
      (lit "<key basename=" ++ quoted (cstr rest) ++ tail).
Proof.
  intros Hskip Hkey Hnul Hsep.
  destruct (writes_keyToStreamBasename F k (Some p) parentSize options)
    as (n0 & n & t & tail & _ & Hw & Hk).
  exists n, tail.
  eapply writes_eq; [exact Hk | reflexivity |].
  rewrite app_assoc. f_equal.
  assert (exists m, writes (write_opening F k (Some p) parentSize options) m
            (lit "<key basename=" ++ quoted (cstr rest))) as [m Hm].
  { unfold write_opening, write_basename. rewrite Hkey.
    rewrite memcmp_take by done. change (0 =? 0) with true. cbv iota.
    rewrite drop_app_length' by (rewrite length_take; lia).
    rewrite skip_separators_run by done.
    destruct (decide (deref rest = NUL)); [done|].
    eexists. eapply writes_eq;
      [ eapply writes_bind; [apply writes_add, writes_fprintf|];
        unfold write_name;
        match goal with |- context [?x =? 0] =>
          replace (x =? 0) with false
            by (symmetry; apply Z.eqb_neq; rewrite length_app; simpl; lia)
        end;
        apply writes_ret
      | reflexivity
      | text_eq ]. }
  by destruct (writes_inj _ _ _ _ _ Hw Hm).
Qed.

Lemma basename_strips_parent_witness :
  exists n tail,
    writes (keyToStreamBasename sample_flags monitor_key
              (Some (lit "system:/sw/xorg")) 0 0) n
      (lit "<key basename=" ++ quoted (lit "Monitor/Monitor0/Name") ++ tail).
Proof.
  apply (basename_strips_parent sample_flags monitor_key (lit "system:/sw/xorg")
           0 1 (lit "Monitor/Monitor0/Name") 0).
  - vm_compute. lia.
  - vm_compute. reflexivity.
  - vm_compute. discriminate.
  - vm_compute. discriminate.
Defined.

(** When the key name does not start with the parent, the element starts
    with the name of the key. *)
Theorem parent_mismatch_writes_name F k p options :
  ~ (cstr p `prefix_of` key k) ->
  exists n rest,
    writes (keyToStreamBasename F k (Some p) 0 options) n
      (lit "<key name="
         ++ quoted (cstr (if isset options (KDB_O_FULLNAME F) then keyGetName k
                          else key k))
         ++ rest).
Proof.
  intros Hno. apply name_form. unfold write_basename.
  destruct (memcmp p (key k) (initial_skip p 0) =? 0) eqn:Hcmp; [|done].
  exfalso. apply Hno, memcmp_zero_prefix.
  apply Z.eqb_eq in Hcmp. revert Hcmp. unfold initial_skip, elektraStrLen. simpl.
  by rewrite Nat.sub_0_r.
Qed.

Lemma parent_mismatch_writes_name_witness :
  exists n rest,
    writes (keyToStreamBasename sample_flags monitor_key (Some (lit "user:/sw")) 0 0) n
      (lit "<key name=" ++ quoted (lit "system:/sw/xorg/Monitor/Monitor0/Name")
         ++ rest).
Proof.
  apply (parent_mismatch_writes_name sample_flags monitor_key (lit "user:/sw") 0).
  intros [x Hx]. vm_compute in Hx. discriminate Hx.
Defined.

(** ** The byte count *)

Lemma tally_ret w : tally w (ret w).
Proof. exists []. simpl. rewrite Z.add_0_r. apply writes_ret. Qed.

Lemma tally_flag_ret b w : tally_flag w (ret (b, w)).
Proof. exists b, []. simpl. rewrite Z.add_0_r. apply writes_ret. Qed.

Lemma tally_fprintf w s : tally w (add w (fprintf s)).
Proof. exists s. apply writes_add, writes_fprintf. Qed.

Lemma tally_add_if c w s : tally w (add_if c w (fprintf s)).
Proof. destruct c; [apply tally_fprintf | apply tally_ret]. Qed.

Lemma length_takeZ {A} n (l : list A) :
  0 <= n <= Z.of_nat (length l) -> Z.of_nat (length (takeZ n l)) = n.
Proof.
  revert n. induction l as [|x l IH]; intros n Hn; simpl in *; [lia|].
  destruct (0 <? n) eqn:Hpos; simpl.
  - apply Z.ltb_lt in Hpos. rewrite Nat2Z.inj_succ, IH; lia.
  - apply Z.ltb_ge in Hpos. lia.
Qed.

Lemma tally_fwrite w p n :
  0 <= n <= Z.of_nat (length p) -> tally w (add w (fwrite p n)).
Proof.
  intros Hn. exists (takeZ n p). rewrite length_takeZ by done.
  apply writes_add, writes_fwrite.
Qed.

Lemma tally_bind w m f :
  tally w m -> (forall w', tally w' (f w')) -> tally w (bind m f).
Proof.
  intros [t Hm] Hf. destruct (Hf (w + Z.of_nat (length t))) as [u Hu].
  exists (t ++ u). rewrite length_app, Nat2Z.inj_add, Z.add_assoc.
  by eapply writes_bind.
Qed.

Lemma tally_flag_bind w m f :
  tally w m -> (forall w', tally_flag w' (f w')) -> tally_flag w (bind m f).
Proof.
  intros [t Hm] Hf. destruct (Hf (w + Z.of_nat (length t))) as (b & u & Hu).
  exists b, (t ++ u). rewrite length_app, Nat2Z.inj_add, Z.add_assoc.
  by eapply writes_bind.
Qed.

Lemma tally_bind_flag w m f :
  tally_flag w m -> (forall b w', tally w' (f (b, w'))) -> tally w (bind m f).
Proof.
  intros (b & t & Hm) Hf. destruct (Hf b (w + Z.of_nat (length t))) as [u Hu].
  exists (t ++ u). rewrite length_app, Nat2Z.inj_add, Z.add_assoc.
  by eapply writes_bind.
Qed.

Ltac tally_steps :=
  repeat match goal with
    | |- tally _ (ret _) => apply tally_ret
    | |- tally_flag _ (ret _) => apply tally_flag_ret
    | |- tally _ (add_if _ _ (fprintf _)) => apply tally_add_if
    | |- tally _ (add _ (fprintf _)) => apply tally_fprintf
    | |- tally _ (add _ (fwrite _ _)) => apply tally_fwrite
    | |- tally _ (bind _ _) => apply tally_bind; [|intros ?]
    | |- tally_flag _ (bind _ _) => apply tally_flag_bind; [|intros ?]
    | |- tally _ (if ?c then _ else _) => destruct c eqn:?
    | |- tally_flag _ (if ?c then _ else _) => destruct c eqn:?
    | |- tally _ (match ?x with Some _ => _ | None => _ end) => destruct x eqn:?
    | |- tally_flag _ (match ?x with Some _ => _ | None => _ end) => destruct x eqn:?
    end.

Lemma keyToStreamBasename_returns_count_lemma F k parent parentSize options :
  sized_value k ->
  exists t,
    writes (keyToStreamBasename F k parent parentSize options)
      (Z.of_nat (length t)) t.
Proof.
  intros Hsize.
  assert (tally 0 (keyToStreamBasename F k parent parentSize options)) as [t Ht];
    [|by exists t].
  unfold keyToStreamBasename.
  apply tally_bind.
  { unfold write_opening, write_basename.
    apply tally_bind; [|intros w'; unfold write_name; tally_steps].
    tally_steps. }
  intros w'. apply tally_bind_flag.
  - unfold write_value. tally_steps.
    unfold size_sub, dataSize.
    match goal with H : data k = Some _ |- _ => rewrite H; specialize (Hsize _ H) end.
    rewrite Z.mod_small; lia.
  - intros [] w''; cbn [fst snd]; [unfold write_tail|]; tally_steps.
Qed.

(** [keyToStreamBasename] returns the number of bytes it has written. *)
Theorem keyToStreamBasename_returns_count F k parent parentSize options :
  sized_value k ->
  exists t,
    writes (keyToStreamBasename F k parent parentSize options)
      (Z.of_nat (length t)) t.
Proof. apply keyToStreamBasename_returns_count_lemma. Qed.

Lemma keyToStreamBasename_returns_count_witness :
  exists t,
    writes (keyToStreamBasename sample_flags monitor_key None 0 0)
      (Z.of_nat (length t)) t.
Proof.
  apply (keyToStreamBasename_returns_count sample_flags monitor_key None 0 0).
  intros d [= <-]. vm_compute. split; reflexivity.
Defined.

(** ** The options that matter *)

(** [keyToStreamBasename] reads the options through the tests of CONDENSED
    and FULLNAME only: two option words that agree on them give the same
    result, so NUMBERS, for one, has no effect. *)
Theorem key_element_ignores_other_options F k parent parentSize o1 o2 w :
  isset o1 (KDB_O_CONDENSED F) = isset o2 (KDB_O_CONDENSED F) ->
  isset o1 (KDB_O_FULLNAME F) = isset o2 (KDB_O_FULLNAME F) ->
  keyToStreamBasename F k parent parentSize o1 w
  = keyToStreamBasename F k parent parentSize o2 w.
Proof.
  intros Hc Hf.
  unfold keyToStreamBasename, write_opening, write_name, write_value, write_tail.
  by rewrite Hc, Hf.
Qed.

Lemma key_element_ignores_other_options_witness :
  keyToStreamBasename sample_flags monitor_key None 0 0 empty_world
  = keyToStreamBasename sample_flags monitor_key None 0 (2 ^ 17) empty_world.
Proof.
  apply (key_element_ignores_other_options sample_flags monitor_key None 0 0 (2 ^ 17));
    reflexivity.
Defined.

(** [ksToStream] reads the options through the tests of HEADER, HIER,
    FULLNAME and the two tests of CONDENSED only. *)
Theorem keyset_document_ignores_other_options F cp ks o1 o2 w :
  isset o1 (KDB_O_HEADER F) = isset o2 (KDB_O_HEADER F) ->
  isset o1 (KDB_O_HIER F) = isset o2 (KDB_O_HIER F) ->
  isset o1 (KDB_O_CONDENSED F) = isset o2 (KDB_O_CONDENSED F) ->
  isset (Z.lnot o1) (KDB_O_CONDENSED F) = isset (Z.lnot o2) (KDB_O_CONDENSED F) ->
  isset o1 (KDB_O_FULLNAME F) = isset o2 (KDB_O_FULLNAME F) ->
  ksToStream F cp ks o1 w = ksToStream F cp ks o2 w.
Proof.
  intros Hh Hi Hc Hn Hf.
  unfold ksToStream, write_header, write_keys, keyToStream, keyToStreamBasename,
    write_opening, write_name, write_value, write_tail.
  by rewrite Hh, Hi, Hc, Hn, Hf.
Qed.

Lemma keyset_document_ignores_other_options_witness :
  ksToStream sample_flags user_parent 7 (2 ^ 20) sample_world
  = ksToStream sample_flags user_parent 7 (2 ^ 20 + 2 ^ 17 + 2 ^ 21) sample_world.
Proof.
  apply (keyset_document_ignores_other_options sample_flags user_parent 7
           (2 ^ 20) (2 ^ 20 + 2 ^ 17 + 2 ^ 21)); reflexivity.
Defined.

(** ** The layout of the document *)

(** With HIER set and a common parent that is not empty, the root element
    gets the parent as attribute and every key is written, in the order of
    the key set, as [keyToStreamBasename] writes it for this parent; in all
    other cases the root element has no parent attribute and every key is
    written as [keyToStream] writes it. Nothing but the stream changes. *)
Theorem keyset_document_layout F cp ks options w :
  let keys := ks_keys ks w in
  let parent := cp keys in
  exists n,
    ksToStream F cp ks options w
    = (n, with_stream w
            (stream w ++ header_text F options (Z.of_nat (length keys))
               ++ (if isset options (KDB_O_HIER F)
                      && negb (bool_decide (deref parent = NUL))
                   then
                     lit "        parent=" ++ quoted (cstr parent) ++ lit ">" ++ [LF]
                       ++ concat ((fun k => text_of
                                    (keyToStreamBasename F k (Some parent) 0 options))
                                  <$> keys)
                   else
                     lit ">" ++ [LF]
                       ++ concat ((fun k => text_of (keyToStream F k options)) <$> keys))
               ++ lit "</keyset>" ++ [LF])).
Proof.
  cbv zeta. destruct (ksToStream_writes F cp ks options w) as [n ->].
  by exists n.
Qed.

(** ** The byte count of a document *)

Lemma tally_on_addu cks l w m t :
  writes m (Z.of_nat (length t)) t -> tally_on cks l w (addu w m).
Proof. intros Hm. exists t. by apply writes_on_writes, writes_addu. Qed.

Lemma tally_on_ret cks l w : 0 <= w < 2 ^ 64 -> tally_on cks l w (ret w).
Proof.
  intros Hw. exists []. simpl. rewrite Z.add_0_r, Z.mod_small by done.
  apply writes_on_writes, writes_ret.
Qed.

Lemma tally_on_bind cks l w m f :
  tally_on cks l w m -> (forall w', 0 <= w' < 2 ^ 64 -> tally_on cks l w' (f w')) ->
  tally_on cks l w (bind m f).
Proof.
  intros [t Hm] Hf.
  destruct (Hf ((w + Z.of_nat (length t)) mod 2 ^ 64)) as [u Hu];
    [by apply Z.mod_pos_bound|].
  exists (t ++ u). rewrite Zplus_mod_idemp_l in Hu.
  rewrite length_app, Nat2Z.inj_add, Z.add_assoc. by eapply writes_on_bind.
Qed.

Lemma tally_on_key F cks l w k parent options :
  sized_value k ->
  tally_on cks l w (addu w (keyToStreamBasename F k parent 0 options)).
Proof.
  intros Hk. destruct (keyToStreamBasename_returns_count_lemma F k parent 0 options Hk)
    as [t Ht].
  by eapply tally_on_addu.
Qed.

Lemma tally_on_loop F cks l parent options its w :
  Forall sized_value l -> 0 <= w < 2 ^ 64 ->
  tally_on cks l w
    (cursor_loop cks its
       (fun key written =>
          match key with
          | Some k => addu written (keyToStreamBasename F k parent 0 options)
          | None => ret written
          end) w).
Proof.
  intros Hl. revert w. induction its as [|it its IH]; intros w Hw; cbn [cursor_loop].
  - by apply tally_on_ret.
  - destruct (l !! it) as [k|] eqn:Hk.
    + assert (Hs : sized_value k).
      { eapply Forall_forall; [exact Hl|]. by eapply list_elem_of_lookup_2. }
      destruct (tally_on_bind cks l w
                  (addu w (keyToStreamBasename F k parent 0 options))
                  (fun s => cursor_loop cks its
                     (fun key written =>
                        match key with
                        | Some k => addu written (keyToStreamBasename F k parent 0 options)
                        | None => ret written
                        end) s)) as [t Ht];
        [by apply tally_on_key | intros w' Hw'; by apply IH|].
      exists t. intros w0 Hw0. unfold bind at 1, ksAtCursor. rewrite Hw0, Hk.
      by apply Ht.
    + destruct (IH w Hw) as [t Ht]. exists t. intros w0 Hw0.
      unfold bind at 1, ksAtCursor. rewrite Hw0, Hk.
      unfold bind, ret. by apply Ht.
Qed.

Lemma tally_on_fprintf cks l w s : tally_on cks l w (addu w (fprintf s)).
Proof. eapply tally_on_addu, writes_fprintf. Qed.

Lemma tally_on_ksGetSize cks l w (f : Z -> M Z) :
  tally_on cks l w (f (Z.of_nat (length l))) ->
  tally_on cks l w (size <- ksGetSize cks ;; f size).
Proof. intros [t Ht]. exists t. by apply writes_on_ksGetSize. Qed.

Lemma tally_on_header F cks l options :
  tally_on cks l 0 (write_header F cks options 0).
Proof.
  unfold write_header.
  destruct (isset options (KDB_O_HEADER F)); [|apply tally_on_fprintf].
  apply tally_on_bind; [apply tally_on_fprintf|]. intros w1 Hw1.
  apply tally_on_bind.
  - destruct (isset (Z.lnot options) (KDB_O_CONDENSED F)); [|by apply tally_on_ret].
    apply tally_on_ksGetSize, tally_on_fprintf.
  - intros w2 Hw2.
    destruct (isset (Z.lnot options) (KDB_O_CONDENSED F)); apply tally_on_fprintf.
Qed.

Lemma tally_on_keys F cp cks l options w :
  Forall sized_value l -> 0 <= w < 2 ^ 64 ->
  tally_on cks l w (write_keys F cp cks options w).
Proof.
  intros Hl Hw.
  assert (Hloop : forall parent w', 0 <= w' < 2 ^ 64 ->
    tally_on cks l w'
      (for_cursor cks
         (fun key written =>
            match key with
            | Some k => addu written (keyToStreamBasename F k parent 0 options)
            | None => ret written
            end) w')).
  { intros parent w' Hw'. unfold for_cursor.
    apply tally_on_ksGetSize. by apply tally_on_loop. }
  assert (Hflat : tally_on cks l w
    (written <- addu w (fprintf (lit ">" ++ [LF])) ;;
     for_cursor cks
       (fun key written =>
          match key with
          | Some k => addu written (keyToStream F k options)
          | None => ret written
          end) written)).
  { apply tally_on_bind; [apply tally_on_fprintf|]. intros w' Hw'.
    by apply (Hloop None). }
  unfold write_keys.
  destruct (isset options (KDB_O_HIER F)); [|exact Hflat].
  destruct (bool_decide (deref (cp l) = NUL)) eqn:Hcp.
  - destruct Hflat as [t Ht]. exists t. intros w0 Hw0.
    unfold bind at 1. rewrite Hw0, Hcp. by apply Ht.
  - destruct (tally_on_bind cks l w
                (addu w (fprintf (lit "        parent=" ++ quoted (cstr (cp l))
                                    ++ lit ">" ++ [LF])))
                (fun written => for_cursor cks
                   (fun key written =>
                      match key with
                      | Some k =>
                          addu written (keyToStreamBasename F k (Some (cp l)) 0 options)
                      | None => ret written
                      end) written)) as [t Ht];
      [apply tally_on_fprintf | intros w' Hw'; by apply Hloop|].
    exists t. intros w0 Hw0. unfold bind at 1. rewrite Hw0, Hcp. by apply Ht.
Qed.

(** [ksToStream] returns the number of bytes it has written, as long as
    this number is below 2^63; it has no error result. *)
Theorem ksToStream_returns_count F cp ks options w :
  Forall sized_value (ks_keys ks w) ->
  exists t,
    stream (snd (ksToStream F cp ks options w)) = stream w ++ t /\
    (Z.of_nat (length t) < 2 ^ 63 ->
     fst (ksToStream F cp ks options w) = Z.of_nat (length t)).
Proof.
  intros Hl. set (l := ks_keys ks w) in *. set (cks := fresh (dom (keysets w))).
  assert (Hbody : tally_on cks l 0
    (written <- write_header F cks options 0 ;;
     written <- write_keys F cp cks options written ;;
     addu written (fprintf (lit "</keyset>" ++ [LF])))).
  { apply tally_on_bind; [apply tally_on_header|]. intros w1 Hw1.
    apply tally_on_bind; [by apply tally_on_keys|]. intros w2 Hw2.
    apply tally_on_fprintf. }
  destruct Hbody as [t Ht]. exists t.
  set (w1 := snd (ksDup ks w)).
  assert (Hw1 : ks_keys cks w1 = l).
  { unfold ks_keys, w1. simpl. by rewrite lookup_insert_eq. }
  specialize (Ht w1 Hw1). unfold ksToStream.
  rewrite !bind_run. fold w1. change (fst (ksDup ks w)) with cks.
  rewrite !bind_run in Ht.
  rewrite Ht. simpl. split; [done|].
  intros Hlen. unfold to_ssize. rewrite (Z.mod_small (Z.of_nat (length t))) by lia.
  rewrite Z.mod_small; lia.
Qed.

Lemma ksToStream_returns_count_witness :
  exists t,
    stream (snd (ksToStream sample_flags user_parent 7 (2 ^ 20) sample_world))
    = stream sample_world ++ t /\
    (Z.of_nat (length t) < 2 ^ 63 ->
     fst (ksToStream sample_flags user_parent 7 (2 ^ 20) sample_world)
     = Z.of_nat (length t)).
Proof.
  apply (ksToStream_returns_count sample_flags user_parent 7 (2 ^ 20) sample_world).
  apply Forall_forall. intros k Hk.
  change (ks_keys 7 sample_world)
    with [monitor_key; sixteen_bytes_key; fifteen_bytes_key] in Hk.
  repeat (apply elem_of_cons in Hk as [->|Hk]); [..|by apply elem_of_nil in Hk];
    intros d [= <-]; vm_compute; split; reflexivity.
Defined.

(** ** The debug line in full *)

Lemma field_step_name_text k : field_step (output_name k) (name_needed k) (name_field k).
Proof.
  intros w. unfold output_name, name_field, name_needed.
  destruct (1 <? keyGetNameSize k); [|done].
  unfold bind, elektraMalloc, elektraFree, fprintf, ret, bump. simpl.
  destruct (malloc_oracle w (malloc_calls w)); [reflexivity|].
  by rewrite app_nil_r.
Qed.

Lemma field_step_value_text F overrun k options :
  value_terminated F k options ->
  field_step (output_value F overrun k options) (value_needed F k options)
    (value_field F k options).
Proof.
  intros Hterm w. unfold value_terminated in Hterm.
  unfold output_value, value_field, value_needed in *.
  destruct (isset options (KEY_VALUE F) && (1 <? keyGetValueSize k)); [|done].
  unfold bind, elektraMalloc, elektraFree, fprintf, ret, bump. simpl.
  destruct (malloc_oracle w (malloc_calls w)); [|by rewrite app_nil_r].
  destruct (keyIsBinary k); [|done].
  unfold string_in. by rewrite bool_decide_eq_true_2 by auto.
Qed.

Lemma field_step_comment_text F k options :
  field_step (output_comment F k options) (comment_needed F k options)
    (comment_field F k options).
Proof.
  intros w. unfold output_comment, comment_field, comment_needed.
  destruct (isset options (KEY_META F) && (1 <? keyGetCommentSize k)); [|done].
  unfold bind, elektraMalloc, elektraFree, fprintf, ret, bump. simpl.
  destruct (malloc_oracle w (malloc_calls w)); [reflexivity|].
  by rewrite app_nil_r.
Qed.

Lemma writes_flags_field F k options :
  writes (output_flags F k options) 1 (flags_field F k options ++ [LF]).
Proof.
  unfold output_flags, flags_field, flag_codes.
  destruct (isset options (KDB_O_SHOWMETA F)), (isset options (KDB_O_SHOWFLAGS F)),
    (keyIsBinary k), (keyIsString k), (keyNeedSync k); cbn [negb];
    (eapply writes_eq; [writes_steps | reflexivity | text_eq]).
Qed.

Lemma field_step_succeeds m needs t w :
  field_step m needs t -> succeeds_from w (malloc_calls w) ->
  m w = (true, advance w (if needs then t else []) (if needs then 1 else 0)).
Proof.
  intros Hm Hw. rewrite Hm. destruct needs.
  - rewrite Hw by lia. unfold bump, advance. by rewrite Nat.add_1_r.
  - unfold advance. destruct w. simpl. by rewrite app_nil_r, Nat.add_0_r.
Qed.

Lemma keyOutput_line_lemma F overrun k options w :
  value_terminated F k options ->
  succeeds_from w (malloc_calls w) ->
  keyOutput F overrun k options w
  = (1, advance w (debug_line F k options) (buffers_needed F k options)).
Proof.
  intros Hterm Hw. unfold keyOutput, debug_line, buffers_needed.
  rewrite bind_run.
  rewrite (field_step_succeeds _ _ _ w (field_step_name_text k) Hw).
  cbn [fst snd negb].
  set (w1 := advance w _ _).
  assert (Hw1 : succeeds_from w1 (malloc_calls w1)).
  { intros i Hi. apply Hw. unfold w1 in Hi. simpl in Hi. lia. }
  rewrite bind_run.
  rewrite (field_step_succeeds _ _ _ w1
             (field_step_value_text F overrun k options Hterm) Hw1).
  cbn [fst snd negb].
  set (w2 := advance w1 _ _).
  assert (Hw2 : succeeds_from w2 (malloc_calls w2)).
  { intros i Hi. apply Hw. unfold w2, w1 in Hi. simpl in Hi. lia. }
  rewrite bind_run.
  rewrite (field_step_succeeds _ _ _ w2 (field_step_comment_text F k options) Hw2).
  cbn [fst snd negb].
  rewrite writes_flags_field. unfold with_stream, advance, w2, w1. simpl.
  do 2 f_equal; [|lia].
  unfold name_field, value_field, comment_field.
  destruct (name_needed k), (value_needed F k options), (comment_needed F k options);
    text_eq.
Qed.

(** When no allocation fails and the value, if it is binary and printed,
    holds a zero byte, [keyOutput] returns 1 and prints one line: the name,
    the value and the comment, each if it is asked for and not empty, then
    the flags; it allocates one buffer for each field it prints and changes
    nothing else. *)
Theorem keyOutput_line F overrun k options w :
  value_terminated F k options ->
  succeeds_from w (malloc_calls w) ->
  keyOutput F overrun k options w
  = (1, advance w (debug_line F k options) (buffers_needed F k options)).
Proof. apply keyOutput_line_lemma. Qed.

Lemma keyOutput_line_witness :
  keyOutput sample_flags zero_behind monitor_key (2 + 2 ^ 14) empty_world
  = (1, advance empty_world
          (lit "Name[38]: system:/sw/xorg/Monitor/Monitor0/Name : "
             ++ lit "String[18]: Samsung TFT panel :  Flags: s" ++ [LF]) 2).
Proof.
  apply (keyOutput_line sample_flags zero_behind monitor_key (2 + 2 ^ 14) empty_world).
  - intros _ Hbin. discriminate Hbin.
  - intros i Hi. reflexivity.
Defined.

(** The value of a binary key is printed up to its first zero byte only,
    beside its full stored size. *)
Theorem keyOutput_cuts_binary_value F overrun k pre post options w :
  succeeds_from w (malloc_calls w) ->
  keyIsBinary k = true -> data k = Some (pre ++ NUL :: post) -> NUL ∉ pre ->
  isset options (KEY_VALUE F) = true -> (pre ++ NUL :: post) ≠ [NUL] ->
  exists before after,
    stream (snd (keyOutput F overrun k options w))
    = stream w ++ before
        ++ lit "Binary["
        ++ decimal (to_int (Z.of_nat (length pre + 1 + length post)))
        ++ lit "]: " ++ pre ++ lit " : " ++ after.
Proof.
  intros Hw Hbin Hdata Hpre Hopt Hne.
  assert (Hterm : value_terminated F k options).
  { intros _ _. unfold value_buffer. rewrite Hdata. simpl.
    apply elem_of_app. right. left. }
  rewrite (keyOutput_line_lemma F overrun k options w Hterm Hw).
  cbn [snd advance stream].
  exists (name_field k), (comment_field F k options ++ flags_field F k options ++ [LF]).
  unfold debug_line, value_field, value_needed, keyGetValueSize, dataSize, value_buffer.
  rewrite Hdata, Hopt, Hbin. cbn [default from_option andb]. unfold id.
  rewrite cstr_terminated by done.
  replace (1 <? Z.of_nat (length (pre ++ NUL :: post))) with true.
  - rewrite length_app. cbn [length]. rewrite <- Nat.add_assoc. cbn [Nat.add].
    replace (length pre + S (length post))%nat
      with (length pre + 1 + length post)%nat by lia.
    text_eq.
  - symmetry. apply Z.ltb_lt. rewrite length_app. simpl.
    destruct pre, post; simpl in *; try lia. done.
Qed.

Lemma keyOutput_cuts_binary_value_witness :
  exists before after,
    stream (snd (keyOutput sample_flags zero_behind zero_byte_key 2 empty_world))
    = stream empty_world ++ before
        ++ lit "Binary[" ++ decimal (to_int (Z.of_nat (2 + 1 + 2)))
        ++ lit "]: " ++ lit "ab" ++ lit " : " ++ after.
Proof.
  apply (keyOutput_cuts_binary_value sample_flags zero_behind zero_byte_key (lit "ab") (lit "cd")
           2 empty_world).
  - intros i Hi. reflexivity.
  - reflexivity.
  - reflexivity.
  - compute_done.
  - reflexivity.
  - discriminate.
Defined.

(** ** The debug dump of a key set *)

Lemma succeeds_from_advance w t c :
  succeeds_from w (malloc_calls w) ->
  succeeds_from (advance w t c) (malloc_calls (advance w t c)).
Proof. intros Hw i Hi. apply Hw. simpl in Hi. lia. Qed.

Lemma output_body_run F overrun options k size w :
  value_terminated F k options ->
  succeeds_from w (malloc_calls w) ->
  output_body F overrun options (Some k) size w
  = ((size + 1) mod 2 ^ 64,
     advance w
       ((if isset options (KDB_O_SHOWINDICES F) then
           lit "[" ++ decimal (to_int size) ++ lit "] "
         else []) ++ debug_line F k options)
       (buffers_needed F k options)).
Proof.
  intros Hterm Hw. unfold output_body. rewrite !bind_run.
  assert (Hidx : writes (when (isset options (KDB_O_SHOWINDICES F))
                           (fprintf (lit "[" ++ decimal (to_int size) ++ lit "] "))) tt
                   (if isset options (KDB_O_SHOWINDICES F) then
                      lit "[" ++ decimal (to_int size) ++ lit "] "
                    else [])) by (eapply writes_when, writes_fprintf).
  rewrite Hidx. cbn [fst snd].
  rewrite keyOutput_line_lemma.
  - unfold ret, advance, with_stream. simpl. by rewrite <- app_assoc.
  - done.
  - intros i Hi. apply Hw. simpl in Hi. done.
Qed.

Lemma output_loop_run F overrun options cks pre keys size w :
  Forall (fun k => value_terminated F k options) keys ->
  succeeds_from w (malloc_calls w) ->
  ks_keys cks w = pre ++ keys ->
  exists size' calls,
    cursor_loop cks (seq (length pre) (length keys)) (output_body F overrun options)
      size w
    = (size', advance w (debug_lines F options size keys) calls).
Proof.
  intros Hterm. revert pre size w.
  induction Hterm as [|k keys Hk _ IH]; intros pre size w Hw Hks.
  - exists size, 0%nat. simpl. unfold ret, advance. destruct w; simpl.
    by rewrite app_nil_r, Nat.add_0_r.
  - cbn [length seq cursor_loop debug_lines].
    rewrite bind_run. unfold ksAtCursor at 1 2. cbn [fst snd].
    rewrite Hks, list_lookup_middle by done.
    rewrite bind_run, output_body_run by done. cbn [fst snd].
    set (w1 := advance w _ _).
    destruct (IH (pre ++ [k]) ((size + 1) mod 2 ^ 64) w1) as (size' & calls & Hrun).
    + by apply succeeds_from_advance.
    + unfold w1, ks_keys in *. simpl. by rewrite Hks, <- app_assoc.
    + rewrite length_app, Nat.add_1_r in Hrun. rewrite Hrun.
      exists size', (buffers_needed F k options + calls)%nat.
      unfold w1, advance. simpl. f_equal. f_equal; [text_eq | lia].
Qed.

(** When no allocation fails and every binary value that is printed holds
    a zero byte, [ksOutput] prints the size line, if HEADER is set, and then
    the line of each key in the order of the key set, after its position
    counted from zero if SHOWINDICES is set. *)
Theorem ksOutput_lines F overrun ks options w :
  Forall (fun k => value_terminated F k options) (ks_keys ks w) ->
  succeeds_from w (malloc_calls w) ->
  stream (snd (ksOutput F overrun ks options w))
  = stream w
      ++ (if isset (KDB_O_HEADER F) options then
            lit "Output keyset of size "
              ++ decimal (to_int (Z.of_nat (length (ks_keys ks w)))) ++ [LF]
          else [])
      ++ debug_lines F options 0 (ks_keys ks w).
Proof.
  intros Hterm Hw. set (l := ks_keys ks w) in *. set (cks := fresh (dom (keysets w))).
  unfold ksOutput. rewrite bind_run. change (fst (ksDup ks w)) with cks.
  set (w1 := snd (ksDup ks w)).
  assert (Hw1 : ks_keys cks w1 = l).
  { unfold ks_keys, w1. simpl. by rewrite lookup_insert_eq. }
  rewrite bind_run.
  set (head := if isset (KDB_O_HEADER F) options then
                 lit "Output keyset of size " ++ decimal (to_int (Z.of_nat (length l)))
                   ++ [LF]
               else []).
  assert (Hhead : snd ((if isset (KDB_O_HEADER F) options then
                          n <- ksGetSize cks ;;
                          fprintf (lit "Output keyset of size " ++ decimal (to_int n)
                                     ++ [LF])
                        else ret 0) w1) = advance w1 head 0).
  { unfold head. destruct (isset (KDB_O_HEADER F) options).
    - unfold bind, ksGetSize, fprintf, advance. rewrite Hw1. simpl.
      by rewrite Nat.add_0_r.
    - unfold ret, advance. destruct w1; simpl. by rewrite app_nil_r, Nat.add_0_r. }
  rewrite Hhead. rewrite !bind_run. unfold ret, ksDel. cbn [fst snd stream].
  unfold for_cursor. rewrite bind_run. unfold ksGetSize. cbn [fst snd].
  change (ks_keys cks (advance w1 head 0)) with (ks_keys cks w1).
  rewrite Hw1, Nat2Z.id.
  destruct (output_loop_run F overrun options cks [] l 0 (advance w1 head 0))
    as (size' & calls & Hrun).
  - done.
  - apply succeeds_from_advance. intros i Hi. by apply Hw.
  - done.
  - change (length []) with 0%nat in Hrun. unfold output_body in Hrun.
    unfold ret in Hrun. rewrite Hrun. simpl. by rewrite <- app_assoc.
Qed.

Lemma ksOutput_lines_witness :
  stream (snd (ksOutput sample_flags zero_behind 7 (2 ^ 18 + 2 ^ 15 + 2)
                 (mkWorld [] (keysets sample_world) (fun _ => true) 0)))
  = lit "Output keyset of size 3" ++ [LF]
      ++ lit "[0] Name[38]: system:/sw/xorg/Monitor/Monitor0/Name : "
      ++ lit "String[18]: Samsung TFT panel : " ++ [LF]
      ++ lit "[1] Name[8]: user:/a : String[17]: 0123456789abcdef : " ++ [LF]
      ++ lit "[2] Name[8]: user:/a : String[16]: 255.255.255.255 : " ++ [LF].
Proof.
  apply (ksOutput_lines sample_flags zero_behind 7 (2 ^ 18 + 2 ^ 15 + 2)
           (mkWorld [] (keysets sample_world) (fun _ => true) 0)).
  - change (ks_keys 7 (mkWorld [] (keysets sample_world) (fun _ => true) 0))
      with [monitor_key; sixteen_bytes_key; fifteen_bytes_key].
    apply Forall_forall. intros k Hk.
    repeat (apply elem_of_cons in Hk as [->|Hk]); [..|by apply elem_of_nil in Hk];
      intros _ Hbin; discriminate Hbin.
  - intros i Hi. reflexivity.
Defined.
